(** * Course recommender: pair aggregation, index construction and lookup

    A shallow embedding of [src/recommender.py].

    Conventions of the embedding.
    - Course and user identifiers are Python ints: [Z].
    - Quality scores, normalised scores and edge weights are Python floats in
      the source.  They are modelled as exact rationals ([Q]); comparisons
      are the numeric ones ([Qle_bool], [Qeq_bool]).  Rounding of binary
      floating point is outside the model.
    - A [Counter] / [dict] whose iteration order is observable (the pair
      counts) is an association list in insertion order.  The recommendation
      index, whose iteration order is never observable (every value is
      sorted independently), is a [gmap].
    - The quality table (a DataFrame indexed by [course_id]) is the list of
      its rows [(course_id, quality_score)] in row order.
    - [np.random.choice] reads an explicit random source [rng : nat -> nat];
      the number of draws made so far is threaded as state. *)

From Stdlib Require Import ZArith QArith Lia Permutation Sorted.
From stdpp Require Import gmap list sorting.

Local Open Scope Z_scope.

(** ** Rows, edges and the quality table *)

Definition edge : Type := (Z * Q)%type.
Definition pair_item : Type := ((Z * Z) * Z)%type.
Abbreviation quality_table := (list (Z * Q)).

(** [self.quality_metrics.loc[course_id, 'quality_score']] when
    [course_id in self.quality_metrics.index], [None] when it is not *)
Fixpoint loc_quality_score (quality_metrics : quality_table) (course_id : Z) : option Q :=
  match quality_metrics with
  | [] => None
  | r :: rest =>
      if r.1 =? course_id then Some r.2 else loc_quality_score rest course_id
  end.

(** [CourseRecommender._get_course_score]: the recorded score over 100 for
    a course of the quality table, 0.5 otherwise *)
Definition _get_course_score (quality_metrics : quality_table) (course_id : Z) : Q :=
  match loc_quality_score quality_metrics course_id with
  | Some quality_score => (quality_score / 100)%Q
  | None => (1 # 2)%Q
  end.

(** ** Index construction *)

(** [list.sort(key=lambda x: x[1], reverse=True)]: Python's sort is stable,
    also under [reverse=True].  It is modelled by a stable insertion sort
    that places an edge in front of the first edge whose weight is not
    larger. *)
Fixpoint insert_edge (e : edge) (l : list edge) : list edge :=
  match l with
  | [] => [e]
  | e' :: l' =>
      if Qle_bool e'.2 e.2 then e :: e' :: l' else e' :: insert_edge e l'
  end.

Definition sort_edges (l : list edge) : list edge := foldr insert_edge [] l.

(** [if c not in index: index[c] = []] followed by [index[c].append(e)] *)
Definition append_edge (index : gmap Z (list edge)) (c : Z) (e : edge)
  : gmap Z (list edge) :=
  <[c := default [] (index !! c) ++ [e]]> index.

Definition pair_weight (quality_metrics : quality_table) (item : pair_item) : Q :=
  let '((course1, course2), count) := item in
  let score1 := _get_course_score quality_metrics course1 in
  let score2 := _get_course_score quality_metrics course2 in
  (inject_Z count * ((score1 + score2) / 2))%Q.

(** Body of the loop over [self.pair_counts.items()] *)
Definition insert_pair (quality_metrics : quality_table)
    (index : gmap Z (list edge)) (item : pair_item) : gmap Z (list edge) :=
  let '((course1, course2), _) := item in
  let weight := pair_weight quality_metrics item in
  let index := append_edge index course1 (course2, weight) in
  append_edge index course2 (course1, weight).

(** The index after the insertion loop and before the per-course sort *)
Definition unsorted_index (quality_metrics : quality_table)
    (pair_counts : list pair_item) : gmap Z (list edge) :=
  fold_left (insert_pair quality_metrics) pair_counts ∅.

(** [CourseRecommender._build_recommendation_index] *)
Definition _build_recommendation_index (quality_metrics : quality_table)
    (pair_counts : list pair_item) : gmap Z (list edge) :=
  sort_edges <$> unsorted_index quality_metrics pair_counts.

(** The dict comprehension of [__init__]:
    [{pair: count for pair, count in pair_counts.items() if count > threshold}] *)
Definition frequent_pairs (pair_counts : list pair_item) (threshold : Z)
  : list pair_item :=
  filter (fun item => threshold <? item.2) pair_counts.

Record CourseRecommender := {
  pair_counts : list pair_item;
  quality_metrics : quality_table;
  all_courses : gset Z;
  threshold : Z;
  recommendation_index : gmap Z (list edge)
}.

(** [CourseRecommender.__init__] *)
Definition init (pair_counts0 : list pair_item) (quality_metrics0 : quality_table)
    (all_courses0 : list Z) (threshold0 : Z) : CourseRecommender :=
  let kept := frequent_pairs pair_counts0 threshold0 in
  {| pair_counts := kept;
     quality_metrics := quality_metrics0;
     all_courses := list_to_set all_courses0;
     threshold := threshold0;
     recommendation_index := _build_recommendation_index quality_metrics0 kept |}.

(** ** Lookup: [get_recommendations] *)

(** The [for candidate_course, weight in ...] loop of [get_recommendations],
    with its [break].  [recommendations] is the list accumulated so far. *)
Fixpoint walk_edges (quality_metrics : quality_table) (n : Z) (min_quality : Q)
    (edges : list edge) (recommendations : list Z) : list Z :=
  match edges with
  | [] => recommendations
  | (candidate_course, _) :: rest =>
      let candidate_score :=
        (_get_course_score quality_metrics candidate_course * 100)%Q in
      let recommendations :=
        if Qle_bool min_quality candidate_score
        then recommendations ++ [candidate_course]
        else recommendations in
      if bool_decide (n ≤ Z.of_nat (length recommendations))
      then recommendations
      else walk_edges quality_metrics n min_quality rest recommendations
  end.

(** [CourseRecommender.get_recommendations] *)
Definition get_recommendations (self : CourseRecommender) (course_id : Z)
    (n : Z) (min_quality : Q) : list Z :=
  match recommendation_index self !! course_id with
  | None => []
  | Some edges => walk_edges (quality_metrics self) n min_quality edges []
  end.

(** Outcome of a Python call: a value, or a raised exception. *)
Inductive exception : Set := IndexError | ValueError.

Inductive outcome (A : Type) : Type :=
| Returns (a : A)
| Raises (e : exception).
Arguments Returns {A} a.
Arguments Raises {A} e.

Definition bind_outcome {A B : Type} (o : outcome A) (k : A -> outcome B) : outcome B :=
  match o with
  | Returns a => k a
  | Raises e => Raises e
  end.

#[global] Instance outcome_bind : MBind outcome :=
  fun A B k o => bind_outcome o k.

(** A call of [get_recommendations].  Its body has no [raise] statement, the
    only subscript [self.recommendation_index[course_id]] is guarded by the
    membership test of its first line, and it checks none of its arguments:
    every call returns. *)
Definition call_get_recommendations (self : CourseRecommender) (course_id : Z)
    (n : Z) (min_quality : Q) : outcome (list Z) :=
  Returns (get_recommendations self course_id n min_quality).

(** ** Backfill and padding: the loop body of [get_all_recommendations] *)

(** Rows of the quality table with [quality_score >= min_quality] and an
    index different from [course_id], as the list of their ids.  (The
    [hasattr(self.quality_metrics, 'index')] test always succeeds on a
    DataFrame; its [else] branch is not modelled.) *)
Definition high_quality_courses (quality_metrics : quality_table)
    (min_quality : Q) (course_id : Z) : list Z :=
  (filter (fun r : Z * Q => Qle_bool min_quality r.2 && negb (r.1 =? course_id))
     quality_metrics).*1.

(** [available = [c for c in high_quality_courses if c not in recs]] *)
Definition available_courses (high_quality : list Z) (recs : list Z) : list Z :=
  filter (fun c => c ∉ recs) high_quality.

(** [np.random.choice(available)] on a non-empty list: the element at a
    position drawn from the random source *)
Definition random_choice (rng : nat -> nat) (draws : nat) (available : list Z) : Z :=
  default 0 (available !! (rng draws mod length available)%nat).

(** [available.remove(new_rec)]: drops the first occurrence *)
Fixpoint list_remove (x : Z) (l : list Z) : list Z :=
  match l with
  | [] => []
  | y :: l' => if decide (y = x) then l' else y :: list_remove x l'
  end.

Record backfill_state := {
  bf_recs : list Z;
  bf_available : list Z;
  bf_draws : nat
}.

(** [while len(recs) < n and available: ...].  Every iteration shortens
    [available] by one, so [length available] iterations are enough; the
    loop is run with that much fuel. *)
Fixpoint backfill_loop (fuel : nat) (rng : nat -> nat) (n : Z) (st : backfill_state)
  : backfill_state :=
  match fuel with
  | O => st
  | S fuel' =>
      if bool_decide (Z.of_nat (length (bf_recs st)) < n ∧ bf_available st ≠ [])
      then
        let new_rec := random_choice rng (bf_draws st) (bf_available st) in
        backfill_loop fuel' rng n
          {| bf_recs := bf_recs st ++ [new_rec];
             bf_available := list_remove new_rec (bf_available st);
             bf_draws := S (bf_draws st) |}
      else st
  end.

(** The pool the backfill phase draws from *)
Definition backfill_pool (self : CourseRecommender) (course_id : Z)
    (min_quality : Q) (recs : list Z) : list Z :=
  available_courses
    (high_quality_courses (quality_metrics self) min_quality course_id) recs.

(** [if len(recs) < n: ...]: the backfill phase *)
Definition backfill (self : CourseRecommender) (rng : nat -> nat) (draws : nat)
    (course_id : Z) (n : Z) (min_quality : Q) (recs : list Z) : backfill_state :=
  if bool_decide (Z.of_nat (length recs) < n) then
    let available := backfill_pool self course_id min_quality recs in
    backfill_loop (length available) rng n
      {| bf_recs := recs; bf_available := available; bf_draws := draws |}
  else {| bf_recs := recs; bf_available := []; bf_draws := draws |}.

(** [while len(recs) < n: recs.append(None)] *)
Definition pad_none (n : Z) (recs : list Z) : list (option Z) :=
  (Some <$> recs) ++ replicate (Z.to_nat (n - Z.of_nat (length recs))) None.

(** The Resolver: primary phase, backfill phase and padding, as run for one
    [course_id] by the body of the loop of [get_all_recommendations].
    Returns the padded list and the advanced draw counter. *)
Definition resolve (self : CourseRecommender) (rng : nat -> nat) (draws : nat)
    (course_id : Z) (n : Z) (min_quality : Q) : list (option Z) * nat :=
  let recs := get_recommendations self course_id n min_quality in
  let st := backfill self rng draws course_id n min_quality recs in
  (pad_none n (bf_recs st), bf_draws st).

Record RecommendationRecord := {
  course_id : Z;
  course_quality : Q;
  recomm_one : option Z;
  recomm_one_quality : option Q;
  recomm_two : option Z;
  recomm_two_quality : option Q;
  has_recommendations : bool
}.

(** [recs[i]]: raises [IndexError] out of range *)
Definition subscript {A : Type} (l : list A) (i : nat) : outcome A :=
  match l !! i with
  | Some x => Returns x
  | None => Raises IndexError
  end.

(** The quality looked up for one slot of [recs] *)
Definition rec_quality_of (quality_metrics : quality_table) (rec : option Z) : option Q :=
  match rec with
  | Some c => loc_quality_score quality_metrics c
  | None => None
  end.

(** The dict appended for one course *)
Definition recommendation_row (self : CourseRecommender) (course_id0 : Z)
    (recs : list (option Z)) : outcome RecommendationRecord :=
  let rec_quality := rec_quality_of (quality_metrics self) <$> recs in
  r0 ← subscript recs 0;
  q0 ← subscript rec_quality 0;
  r1 ← subscript recs 1;
  q1 ← subscript rec_quality 1;
  Returns {| course_id := course_id0;
             course_quality := (_get_course_score (quality_metrics self) course_id0 * 100)%Q;
             recomm_one := r0;
             recomm_one_quality := q0;
             recomm_two := r1;
             recomm_two_quality := q1;
             has_recommendations := bool_decide (is_Some r0) |}.

(** The loop of [get_all_recommendations] over an ordered list of courses *)
Fixpoint all_rows (self : CourseRecommender) (rng : nat -> nat) (draws : nat)
    (courses : list Z) (n : Z) (min_quality : Q) : outcome (list RecommendationRecord) :=
  match courses with
  | [] => Returns []
  | c :: rest =>
      let '(recs, draws') := resolve self rng draws c n min_quality in
      row ← recommendation_row self c recs;
      rows ← all_rows self rng draws' rest n min_quality;
      Returns (row :: rows)
  end.

(** [CourseRecommender.get_all_recommendations]; [sorted(self.all_courses)]
    is the ascending list of the elements of the set *)
Definition get_all_recommendations (self : CourseRecommender) (rng : nat -> nat)
    (n : Z) (min_quality : Q) : outcome (list RecommendationRecord) :=
  all_rows self rng 0 (merge_sort Z.le (elements (all_courses self))) n min_quality.

(** ** Pair aggregation: [analyze_joint_purchases] *)

(** A row of [purchase_data]: [(user_id, course_id)] *)
Definition purchase_row : Type := (Z * Z)%type.

(** Group keys of [groupby('user_id')]: the distinct user ids, ascending *)
Definition group_keys (purchase_data : list purchase_row) : list Z :=
  merge_sort Z.le (remove_dups purchase_data.*1).

(** [apply(list)] for one group: the user's course ids in row order,
    repetitions included *)
Definition courses_of (purchase_data : list purchase_row) (user_id : Z) : list Z :=
  (filter (fun r : purchase_row => r.1 = user_id) purchase_data).*2.

(** The column [user_courses['course_id']] *)
Definition user_courses (purchase_data : list purchase_row) : list (list Z) :=
  courses_of purchase_data <$> group_keys purchase_data.

(** [itertools.combinations(l, 2)] *)
Fixpoint combinations2 (l : list Z) : list (Z * Z) :=
  match l with
  | [] => []
  | x :: l' => (pair x <$> l') ++ combinations2 l'
  end.

(** Body of the loop over the users' course lists *)
Definition pairs_of_user (courses : list Z) : list (Z * Z) :=
  if bool_decide (2 ≤ length courses)%nat
  then combinations2 (merge_sort Z.le courses)
  else [].

Definition all_pairs (purchase_data : list purchase_row) : list (Z * Z) :=
  user_courses purchase_data ≫= pairs_of_user.

(** [Counter(iterable)]: counts in order of first occurrence *)
Fixpoint counter_incr (k : Z * Z) (c : list pair_item) : list pair_item :=
  match c with
  | [] => [(k, 1)]
  | (k', m) :: c' =>
      if decide (k' = k) then (k', m + 1) :: c' else (k', m) :: counter_incr k c'
  end.

Definition Counter (l : list (Z * Z)) : list pair_item :=
  fold_left (fun c k => counter_incr k c) l [].

(** [analyze_joint_purchases], first component of the result (the second
    component is the same counts as a table sorted by frequency) *)
Definition analyze_joint_purchases (purchase_data : list purchase_row)
  : list pair_item :=
  Counter (all_pairs purchase_data).


(** ** Frequency table and top pairs *)

(** [Counter.most_common()]: the items by decreasing count, items of equal
    count in the order in which they were first counted.  As for the edge
    lists, the library sort is modelled by a stable insertion sort. *)
Fixpoint insert_item (item : pair_item) (l : list pair_item) : list pair_item :=
  match l with
  | [] => [item]
  | item' :: l' =>
      if bool_decide (item'.2 ≤ item.2)
      then item :: item' :: l'
      else item' :: insert_item item l'
  end.

Definition most_common_all (counter : list pair_item) : list pair_item :=
  foldr insert_item [] counter.

(** [Counter.most_common(n)]: all items for [n = None], otherwise the first
    [n] of them (none for [n <= 0]) *)
Definition most_common (counter : list pair_item) (n : option Z) : list pair_item :=
  match n with
  | None => most_common_all counter
  | Some n => take (Z.to_nat n) (most_common_all counter)
  end.

Module PairFreq.

(** A row of [pair_freq_df] *)
Record row := {
  pair : Z * Z;
  frequency : Z;
  course1 : Z;
  course2 : Z
}.

End PairFreq.

(** [analyze_joint_purchases], second component of the result: the table
    built from [pair_counts.most_common()] with the columns [course1] and
    [course2] added *)
Definition pair_freq_df (purchase_data : list purchase_row) : list PairFreq.row :=
  (fun item : pair_item =>
     {| PairFreq.pair := item.1;
        PairFreq.frequency := item.2;
        PairFreq.course1 := item.1.1;
        PairFreq.course2 := item.1.2 |})
    <$> most_common (analyze_joint_purchases purchase_data) None.

(** [print_top_pairs]: the lines printed after the heading, one per item of
    [pair_counts.most_common(n)], as (rank, course, course, frequency) *)
Definition print_top_pairs (counter : list pair_item) (n : Z)
  : list (Z * Z * Z * Z) :=
  imap (fun i (item : pair_item) =>
          (Z.of_nat i + 1, item.1.1, item.1.2, item.2))
       (most_common counter (Some n)).

(** ** Reading the recommendation table *)

(** A recommendation table is the DataFrame built by
    [get_all_recommendations] from its list of rows.  Built from an empty
    list it has no columns, and a column subscript raises [KeyError]. *)
Inductive table_exception : Set := KeyError.

Module CourseInfo.

(** The dict returned for a course that has a row *)
Record t := {
  course_id : Z;
  course_quality : Q;
  recommendations : list (Z * option Q)
}.

End CourseInfo.

Inductive lookup_result : Type :=
| NotFound (course_id : Z)
| Found (info : CourseInfo.t).

(** The entry appended for a slot that is not a sentinel *)
Definition slot_entry (rec : option Z) (quality : option Q) : list (Z * option Q) :=
  match rec with
  | Some c => [(c, quality)]
  | None => []
  end.

(** [get_recommendations_for_course] *)
Definition get_recommendations_for_course (recommendations_df : list RecommendationRecord)
    (c : Z) : table_exception + lookup_result :=
  match recommendations_df with
  | [] => inl KeyError
  | _ =>
      match filter (fun r : RecommendationRecord => course_id r = c) recommendations_df with
      | [] => inr (NotFound c)
      | rec_row :: _ =>
          inr (Found
            {| CourseInfo.course_id := c;
               CourseInfo.course_quality := course_quality rec_row;
               CourseInfo.recommendations :=
                 slot_entry (recomm_one rec_row) (recomm_one_quality rec_row) ++
                 slot_entry (recomm_two rec_row) (recomm_two_quality rec_row) |})
      end
  end.

(** ** Statistics of the table *)

(** [recommendations_df[['recomm_one', 'recomm_two']].notna().sum(axis=1)] *)
Definition rec_counts (recommendations_df : list RecommendationRecord) : list nat :=
  (fun r : RecommendationRecord =>
     length (filter (fun slot : option Z => is_Some slot) [recomm_one r; recomm_two r]))
    <$> recommendations_df.

(** [(rec_counts == count).sum()] *)
Definition count_courses (recommendations_df : list RecommendationRecord)
    (count : nat) : nat :=
  length (filter (fun k => k = count) (rec_counts recommendations_df)).

Record recommendation_statistics := {
  total_courses : nat;
  courses_with_recs : nat;
  courses_by_count : list (nat * nat)
}.

(** [get_recommendation_statistics]: the counts it returns and the
    histogram it prints for 0, 1 and 2 recommendations.  The third entry of
    the returned dict, [avg_quality], a mean of floats that skips missing
    values, is not modelled. *)
Definition get_recommendation_statistics (recommendations_df : list RecommendationRecord)
  : table_exception + recommendation_statistics :=
  match recommendations_df with
  | [] => inl KeyError
  | _ =>
      inr {| total_courses := length recommendations_df;
             courses_with_recs :=
               length (filter (fun r : RecommendationRecord => has_recommendations r)
                         recommendations_df);
             courses_by_count :=
               (fun count => (count, count_courses recommendations_df count))
                 <$> [0; 1; 2]%nat |}
  end.
(** ** Vocabulary of the statements *)

(** [heavier a b]: the weight of [a] is at least the weight of [b] *)
Definition heavier (a b : edge) : Prop := (b.2 <= a.2)%Q.

(** Edges whose weight is numerically equal to [w] *)
Definition has_weight (w : Q) (e : edge) : bool := Qeq_bool e.2 w.

(** The edge list of a course, empty when the course has no entry *)
Definition edges_at (index : gmap Z (list edge)) (c : Z) : list edge :=
  default [] (index !! c).

(** The edges that one pair appends to the list of course [c], in the order
    of the two [append] calls *)
Definition edges_of_pair (quality_metrics : quality_table) (c : Z)
    (item : pair_item) : list edge :=
  let '((course1, course2), _) := item in
  let weight := pair_weight quality_metrics item in
  (if decide (course1 = c) then [(course2, weight)] else []) ++
  (if decide (course2 = c) then [(course1, weight)] else []).

(** All edges appended to the list of course [c], in insertion order *)
Definition inserted_edges (quality_metrics : quality_table) (c : Z)
    (pair_counts : list pair_item) : list edge :=
  pair_counts ≫= edges_of_pair quality_metrics c.

(** Number of entries [(c, w')] of an edge list with [w'] numerically equal
    to [w] *)
Definition count_edge (c : Z) (w : Q) (l : list edge) : nat :=
  length (filter (fun e : edge => bool_decide (e.1 = c) && has_weight w e) l).

(** Refinement target of the backfill phase, in the words of the
    specification: [x] is a course of the universe whose quality score, 50
    when the quality table has no row for it, is at least [min_quality];
    it is not [course_id] and not an accepted candidate. *)
Definition quality_or_default (quality_metrics : quality_table) (x : Z) : Q :=
  default (50 # 1)%Q (loc_quality_score quality_metrics x).

Definition spec_backfill_pool (self : CourseRecommender) (course_id : Z)
    (min_quality : Q) (recs : list Z) (x : Z) : Prop :=
  x ∈ all_courses self /\
  (min_quality <= quality_or_default (quality_metrics self) x)%Q /\
  x <> course_id /\
  x ∉ recs.

(** The recommender with the quality rows of course [c] deleted, so that
    [c] has no quality record *)
Definition without_quality_row (self : CourseRecommender) (c : Z) : CourseRecommender :=
  {| pair_counts := pair_counts self;
     quality_metrics := filter (fun r : Z * Q => r.1 <> c) (quality_metrics self);
     all_courses := all_courses self;
     threshold := threshold self;
     recommendation_index := recommendation_index self |}.

(** Rejection of a call with an invalid argument *)
Definition rejects_invalid_argument {A : Type} (o : outcome A) : Prop :=
  exists e, o = Raises e.

(** Number of entries of a resolver result that are course ids *)
Definition non_sentinel (recs : list (option Z)) : nat :=
  length (filter (fun r : option Z => is_Some r) recs).

(** Number of occurrences of a pair in a list of pairs *)
Definition count_in (k : Z * Z) (l : list (Z * Z)) : nat :=
  length (filter (fun x => x = k) l).

(** Number of distinct users who have a row for course [a] and a row for
    course [b] *)
Definition users_with_both (purchase_data : list purchase_row) (a b : Z) : nat :=
  length (filter (fun u => (u, a) ∈ purchase_data /\ (u, b) ∈ purchase_data)
            (remove_dups purchase_data.*1)).

(** ** Concrete inputs *)

Module Scenario.

(** [{user1: [101, 102], user2: [101, 103], user3: [102, 103]}] *)
Definition purchases : list purchase_row :=
  [(1, 101); (1, 102); (2, 101); (2, 103); (3, 102); (3, 103)].

(** [{101: 80, 102: 60, 103: 40}] *)
Definition quality : quality_table :=
  [(101, (80 # 1)%Q); (102, (60 # 1)%Q); (103, (40 # 1)%Q)].

Definition courses : list Z := [101; 102; 103].

Definition recommender : CourseRecommender :=
  init (analyze_joint_purchases purchases) quality courses 0.

(** The same courses and scores with no co-purchase at all *)
Definition unconnected : CourseRecommender := init [] quality courses 0.

End Scenario.

Module Sparse.

(** Three courses, no frequent pair, a quality row for course 1 only *)
Definition quality : quality_table := [(1, (80 # 1)%Q)].

Definition recommender : CourseRecommender := init [] quality [1; 2; 3] 0.

End Sparse.

(** ** Further vocabulary *)

(** The quality test of the primary phase on a candidate *)
Definition passes_quality (quality_metrics : quality_table) (min_quality : Q)
    (candidate : Z) : bool :=
  Qle_bool min_quality (_get_course_score quality_metrics candidate * 100).


(** Sum of the counts of a counter *)
Definition total_count (c : list pair_item) : Z :=
  foldr (fun item s => item.2 + s) 0 c.

(** Number of pairs the aggregator enumerates: k (k - 1) / 2 for every user
    with k purchase rows *)
Definition pairs_enumerated (purchase_data : list purchase_row) : Z :=
  foldr (fun u s =>
           let k := Z.of_nat (length (courses_of purchase_data u)) in
           k * (k - 1) / 2 + s)
        0 (group_keys purchase_data).

(** [more_frequent a b]: the count of [a] is at least the count of [b] *)
Definition more_frequent (a b : pair_item) : Prop := b.2 <= a.2.

(** The counter item shown by a row of the frequency table *)
Definition row_item (r : PairFreq.row) : pair_item :=
  (PairFreq.pair r, PairFreq.frequency r).

(** The row built for course [c] from the first two slots [r0], [r1] of the
    resolver's result *)
Definition row_of (self : CourseRecommender) (c : Z) (r0 r1 : option Z)
  : RecommendationRecord :=
  {| course_id := c;
     course_quality := (_get_course_score (quality_metrics self) c * 100)%Q;
     recomm_one := r0;
     recomm_one_quality := rec_quality_of (quality_metrics self) r0;
     recomm_two := r1;
     recomm_two_quality := rec_quality_of (quality_metrics self) r1;
     has_recommendations := bool_decide (is_Some r0) |}.

(** [row] is the row of course [c]: built from the first two slots of a
    result of the resolver for [c] *)
Definition is_row_of (self : CourseRecommender) (rng : nat -> nat) (n : Z)
    (mq : Q) (c : Z) (row : RecommendationRecord) : Prop :=
  exists draws r0 r1 rest,
    (resolve self rng draws c n mq).1 = r0 :: r1 :: rest /\
    row = row_of self c r0 r1.

(** * Properties *)

(** ** The stable descending sort *)

#[local] Instance heavier_trans : Transitive heavier.
Proof. intros a b c Hab Hbc. unfold heavier in *. by eapply Qle_trans. Qed.

Lemma Qle_bool_false (x y : Q) : Qle_bool x y = false -> (y < x)%Q.
Proof.
  intros H. apply Qnot_le_lt. intros Hle.
  apply Qle_bool_iff in Hle. congruence.
Qed.

Lemma insert_edge_perm (e : edge) (l : list edge) : insert_edge e l ≡ₚ e :: l.
Proof.
  induction l as [|e' l IH]; simpl; [done|].
  destruct (Qle_bool e'.2 e.2); [done|].
  rewrite IH. apply Permutation_swap.
Qed.

Lemma sort_edges_perm (l : list edge) : sort_edges l ≡ₚ l.
Proof.
  induction l as [|e l IH]; simpl; [done|].
  by rewrite insert_edge_perm, IH.
Qed.

Lemma insert_edge_hd (a e : edge) (l : list edge) :
  heavier a e -> HdRel heavier a l -> HdRel heavier a (insert_edge e l).
Proof.
  intros Hae Hal. destruct l as [|e' l]; simpl.
  - by constructor.
  - destruct (Qle_bool e'.2 e.2); constructor; [done|].
    by inversion Hal.
Qed.

Lemma insert_edge_sorted (e : edge) (l : list edge) :
  Sorted heavier l -> Sorted heavier (insert_edge e l).
Proof.
  induction l as [|e' l IH]; simpl; intros Hs.
  - by repeat constructor.
  - destruct (Qle_bool e'.2 e.2) eqn:Hcmp.
    + constructor; [done|]. constructor. by apply Qle_bool_iff.
    + inversion Hs as [|? ? Hl Hhd]; subst. constructor; [by apply IH|].
      apply insert_edge_hd; [|done].
      apply Qle_bool_false in Hcmp. by apply Qlt_le_weak.
Qed.

Lemma sort_edges_sorted (l : list edge) : StronglySorted heavier (sort_edges l).
Proof.
  apply Sorted_StronglySorted; [apply _|].
  induction l as [|e l IH]; simpl; [constructor|].
  by apply insert_edge_sorted.
Qed.

Lemma insert_edge_stable (w : Q) (e : edge) (l : list edge) :
  filter (has_weight w) (insert_edge e l) = filter (has_weight w) (e :: l).
Proof.
  induction l as [|e' l IH]; simpl; [done|].
  destruct (Qle_bool e'.2 e.2) eqn:Hcmp; [done|].
  apply Qle_bool_false in Hcmp.
  rewrite (filter_cons _ e'), IH, !filter_cons.
  destruct (decide (has_weight w e')) as [He'|He'];
    destruct (decide (has_weight w e)) as [He|He]; try done.
  exfalso. unfold has_weight in *.
  apply Is_true_true, Qeq_bool_iff in He'. apply Is_true_true, Qeq_bool_iff in He.
  rewrite He, He' in Hcmp. by apply Qlt_irrefl in Hcmp.
Qed.

Lemma sort_edges_stable (w : Q) (l : list edge) :
  filter (has_weight w) (sort_edges l) = filter (has_weight w) l.
Proof.
  induction l as [|e l IH]; simpl; [done|].
  rewrite insert_edge_stable, !filter_cons, IH. done.
Qed.

(** ** The insertion loop *)

Lemma lookup_append_edge (index : gmap Z (list edge)) (c c' : Z) (e : edge) :
  append_edge index c e !! c' =
    if decide (c = c') then Some (edges_at index c ++ [e]) else index !! c'.
Proof.
  unfold append_edge, edges_at. rewrite lookup_insert.
  by destruct (decide (c = c')).
Qed.

Lemma edges_at_insert_pair qm (index : gmap Z (list edge)) (c : Z) (item : pair_item) :
  edges_at (insert_pair qm index item) c = edges_at index c ++ edges_of_pair qm c item.
Proof.
  destruct item as [[c1 c2] k]. unfold insert_pair, edges_of_pair.
  unfold edges_at at 1. rewrite lookup_append_edge.
  unfold edges_at at 1. rewrite lookup_append_edge.
  destruct (decide (c2 = c)) as [->|H2]; destruct (decide (c1 = c)) as [H1|H1]; simpl.
  - subst c1. by rewrite <- app_assoc.
  - done.
  - rewrite lookup_append_edge, decide_True by done. by subst c1.
  - rewrite lookup_append_edge, decide_False by done.
    by rewrite app_nil_r.
Qed.

Lemma is_Some_insert_pair qm (index : gmap Z (list edge)) (c : Z) (item : pair_item) :
  is_Some (insert_pair qm index item !! c) <->
  is_Some (index !! c) \/ edges_of_pair qm c item <> [].
Proof.
  destruct item as [[c1 c2] k]. unfold insert_pair, edges_of_pair.
  rewrite !lookup_append_edge.
  destruct (decide (c2 = c)) as [->|H2]; destruct (decide (c1 = c)) as [H1|H1]; simpl.
  - split; [by right|eauto].
  - split; [by right|eauto].
  - split; [by right|eauto].
  - split; [by left|]. by intros [?|?].
Qed.

Lemma inserted_edges_cons qm (c : Z) (item : pair_item) (pcs : list pair_item) :
  inserted_edges qm c (item :: pcs) = edges_of_pair qm c item ++ inserted_edges qm c pcs.
Proof. reflexivity. Qed.

Lemma edges_at_fold_insert_pair qm (pcs : list pair_item) (index : gmap Z (list edge)) (c : Z) :
  edges_at (fold_left (insert_pair qm) pcs index) c =
    edges_at index c ++ inserted_edges qm c pcs.
Proof.
  revert index. induction pcs as [|item pcs IH]; intros index; cbn [fold_left].
  - by rewrite app_nil_r.
  - by rewrite IH, edges_at_insert_pair, inserted_edges_cons, app_assoc.
Qed.

Lemma is_Some_fold_insert_pair qm (pcs : list pair_item) (index : gmap Z (list edge)) (c : Z) :
  is_Some (fold_left (insert_pair qm) pcs index !! c) <->
  is_Some (index !! c) \/ inserted_edges qm c pcs <> [].
Proof.
  revert index. induction pcs as [|item pcs IH]; intros index; cbn [fold_left].
  - split; [by left|]. by intros [?|?].
  - rewrite IH, is_Some_insert_pair, inserted_edges_cons.
    split.
    + intros [[?|Hn]|Hn]; [by left| |].
      * right. intros Heq. by apply app_eq_nil in Heq as [? ?].
      * right. intros Heq. by apply app_eq_nil in Heq as [? ?].
    + intros [?|Hn]; [by left; left|].
      destruct (edges_of_pair qm c item) eqn:He.
      * by right.
      * left. by right.
Qed.

Lemma unsorted_index_lookup qm (pcs : list pair_item) (c : Z) :
  unsorted_index qm pcs !! c =
    match inserted_edges qm c pcs with
    | [] => None
    | es => Some es
    end.
Proof.
  pose proof (edges_at_fold_insert_pair qm pcs ∅ c) as He.
  pose proof (is_Some_fold_insert_pair qm pcs ∅ c) as Hs.
  unfold edges_at in He. rewrite lookup_empty in He, Hs. simpl in He.
  fold (unsorted_index qm pcs) in He, Hs.
  destruct (unsorted_index qm pcs !! c) as [l|] eqn:Hl; simpl in He.
  - subst l. destruct (inserted_edges qm c pcs) eqn:Hi; [|done].
    destruct Hs as [Hs _]. destruct Hs as [[? ?]|?]; by eauto.
  - destruct (inserted_edges qm c pcs) eqn:Hi; [done|].
    destruct Hs as [_ Hs]. destruct Hs as [? ?]; [by right|done].
Qed.

Lemma edges_at_unsorted_index qm (pcs : list pair_item) (c : Z) :
  edges_at (unsorted_index qm pcs) c = inserted_edges qm c pcs.
Proof.
  unfold edges_at. rewrite unsorted_index_lookup.
  by destruct (inserted_edges qm c pcs).
Qed.

Lemma build_index_lookup qm (pcs : list pair_item) (c : Z) :
  _build_recommendation_index qm pcs !! c = sort_edges <$> unsorted_index qm pcs !! c.
Proof. unfold _build_recommendation_index. by rewrite lookup_fmap. Qed.

Lemma edges_at_build_index qm (pcs : list pair_item) (c : Z) :
  edges_at (_build_recommendation_index qm pcs) c = sort_edges (inserted_edges qm c pcs).
Proof.
  unfold edges_at. rewrite build_index_lookup, unsorted_index_lookup.
  by destruct (inserted_edges qm c pcs).
Qed.

Lemma elem_of_edges_of_pair qm (c a b k : Z) (e : edge) :
  e ∈ edges_of_pair qm c ((a, b), k) <->
  (a = c /\ e = (b, pair_weight qm ((a, b), k))) \/
  (b = c /\ e = (a, pair_weight qm ((a, b), k))).
Proof.
  unfold edges_of_pair. rewrite elem_of_app.
  destruct (decide (a = c)), (decide (b = c));
    rewrite ?list_elem_of_singleton, ?elem_of_nil; tauto.
Qed.

Lemma elem_of_inserted_edges qm (c : Z) (pcs : list pair_item) (e : edge) :
  e ∈ inserted_edges qm c pcs <->
  exists item, e ∈ edges_of_pair qm c item /\ item ∈ pcs.
Proof. unfold inserted_edges. apply list_elem_of_bind. Qed.

Lemma elem_of_edges_at_build_index qm (pcs : list pair_item) (c : Z) (e : edge) :
  e ∈ edges_at (_build_recommendation_index qm pcs) c <->
  exists item, e ∈ edges_of_pair qm c item /\ item ∈ pcs.
Proof.
  rewrite edges_at_build_index, sort_edges_perm. apply elem_of_inserted_edges.
Qed.

Lemma is_Some_build_index qm (pcs : list pair_item) (c : Z) :
  is_Some (_build_recommendation_index qm pcs !! c) <->
  exists e, e ∈ inserted_edges qm c pcs.
Proof.
  rewrite build_index_lookup, unsorted_index_lookup.
  destruct (inserted_edges qm c pcs) as [|e es]; simpl.
  - split; [by intros [? ?]|]. intros [e He]. by apply elem_of_nil in He.
  - split; [|by eauto]. intros _. exists e. by left.
Qed.

Lemma elem_of_frequent_pairs (pcs : list pair_item) (t : Z) (item : pair_item) :
  item ∈ frequent_pairs pcs t <-> t < item.2 /\ item ∈ pcs.
Proof.
  unfold frequent_pairs. rewrite list_elem_of_filter.
  by rewrite Is_true_true, Z.ltb_lt.
Qed.

Lemma frequent_pairs_drop_rare (pcs : list pair_item) (t : Z) (item : pair_item) :
  item.2 <= t ->
  frequent_pairs (filter (fun i => i <> item) pcs) t = frequent_pairs pcs t.
Proof.
  intros Hle. unfold frequent_pairs.
  apply list_filter_filter_l. intros i Hi Heq. subst i.
  apply Is_true_true, Z.ltb_lt in Hi. lia.
Qed.

Lemma surviving_pair_edges qm (pcs : list pair_item) (t c1 c2 k : Z) :
  ((c1, c2), k) ∈ pcs -> t < k ->
  (c2, pair_weight qm ((c1, c2), k))
    ∈ edges_at (_build_recommendation_index qm (frequent_pairs pcs t)) c1 /\
  (c1, pair_weight qm ((c1, c2), k))
    ∈ edges_at (_build_recommendation_index qm (frequent_pairs pcs t)) c2.
Proof.
  intros Hin Hlt.
  assert (((c1, c2), k) ∈ frequent_pairs pcs t) as Hk
    by (by apply elem_of_frequent_pairs).
  split; apply elem_of_edges_at_build_index; exists ((c1, c2), k);
    (split; [|done]); apply elem_of_edges_of_pair; first [by left | by right].
Qed.

(** C2: a pair whose count is at most the threshold is dropped by the
    constructor and contributes nothing: the index built is the index built
    from the pair counts without that pair.  A pair whose count is at least
    threshold + 1 has an edge in the list of each of its two courses, with
    one and the same weight. *)
Theorem threshold_boundary (pcs : list pair_item) (qm : quality_table)
    (ac : list Z) (t c1 c2 k : Z) :
  ((c1, c2), k) ∈ pcs ->
  (k <= t ->
     (((c1, c2), k) ∉ pair_counts (init pcs qm ac t)) /\
     recommendation_index (init pcs qm ac t) =
       recommendation_index
         (init (filter (fun i => i <> ((c1, c2), k)) pcs) qm ac t)) /\
  (t + 1 <= k ->
     exists w,
       (c2, w) ∈ edges_at (recommendation_index (init pcs qm ac t)) c1 /\
       (c1, w) ∈ edges_at (recommendation_index (init pcs qm ac t)) c2).
Proof.
  intros Hin. split.
  - intros Hle. unfold init. cbn [pair_counts recommendation_index]. split.
    + rewrite elem_of_frequent_pairs. simpl. lia.
    + f_equal. symmetry. by apply (frequent_pairs_drop_rare pcs t ((c1, c2), k)).
  - intros Hgt. exists (pair_weight qm ((c1, c2), k)).
    unfold init. cbn [recommendation_index].
    apply surviving_pair_edges; [done|lia].
Qed.

Lemma threshold_boundary_witness :
  (1 <= 1 ->
     (((101, 102), 1) ∉ pair_counts
        (init [((101, 102), 1); ((101, 103), 2)] Scenario.quality Scenario.courses 1)) /\
     recommendation_index
        (init [((101, 102), 1); ((101, 103), 2)] Scenario.quality Scenario.courses 1) =
     recommendation_index
        (init (filter (fun i => i <> ((101, 102), 1)) [((101, 102), 1); ((101, 103), 2)])
           Scenario.quality Scenario.courses 1)) /\
  (1 + 1 <= 1 ->
     exists w,
       (102, w) ∈ edges_at (recommendation_index
          (init [((101, 102), 1); ((101, 103), 2)] Scenario.quality Scenario.courses 1)) 101 /\
       (101, w) ∈ edges_at (recommendation_index
          (init [((101, 102), 1); ((101, 103), 2)] Scenario.quality Scenario.courses 1)) 102).
Proof.
  apply (threshold_boundary [((101, 102), 1); ((101, 103), 2)]
           Scenario.quality Scenario.courses 1 101 102 1).
  apply (bool_decide_unpack _). vm_compute. exact I.
Defined.

Lemma get_course_score_cases (qm : quality_table) (c : Z) :
  ((c ∉ qm.*1) /\ _get_course_score qm c = (1 # 2)%Q) \/
  (exists q, (c, q) ∈ qm /\ _get_course_score qm c = (q / 100)%Q).
Proof.
  unfold _get_course_score.
  induction qm as [|[c' q'] qm IH]; simpl.
  - left. split; [apply not_elem_of_nil|done].
  - destruct (Z.eqb_spec c' c) as [->|Hne].
    + right. exists q'. split; [by left|done].
    + destruct IH as [[Hnot Hs]|[q [Hq Hs]]].
      * left. split; [|done]. rewrite not_elem_of_cons. done.
      * right. exists q. split; [by right|done].
Qed.

(** C3: for every pair (c1, c2) with count n above the threshold, the edges
    stored for it, c2 in the list of c1 and c1 in the list of c2, carry the
    weight n * (score(c1) + score(c2)) / 2, where score(c) is the recorded
    quality score of c divided by 100 when c has a row in the quality table
    and 1/2 (the default 50, normalised) when it has none. *)
Theorem edge_weight_formula (pcs : list pair_item) (qm : quality_table)
    (ac : list Z) (t c1 c2 n : Z) :
  ((c1, c2), n) ∈ pcs -> t < n ->
  exists w s1 s2,
    (c2, w) ∈ edges_at (recommendation_index (init pcs qm ac t)) c1 /\
    (c1, w) ∈ edges_at (recommendation_index (init pcs qm ac t)) c2 /\
    (w == inject_Z n * (s1 + s2) / 2)%Q /\
    (((c1 ∉ qm.*1) /\ s1 = (1 # 2)%Q /\ (s1 == 50 / 100)%Q) \/
     (exists q, (c1, q) ∈ qm /\ s1 = (q / 100)%Q)) /\
    (((c2 ∉ qm.*1) /\ s2 = (1 # 2)%Q /\ (s2 == 50 / 100)%Q) \/
     (exists q, (c2, q) ∈ qm /\ s2 = (q / 100)%Q)).
Proof.
  intros Hin Hlt.
  exists (pair_weight qm ((c1, c2), n)),
    (_get_course_score qm c1), (_get_course_score qm c2).
  destruct (surviving_pair_edges qm pcs t c1 c2 n Hin Hlt) as [He1 He2].
  split; [exact He1|]. split; [exact He2|]. split.
  - unfold pair_weight. field.
  - split.
    + destruct (get_course_score_cases qm c1) as [[? Hs]|?]; [left|by right].
      rewrite Hs. done.
    + destruct (get_course_score_cases qm c2) as [[? Hs]|?]; [left|by right].
      rewrite Hs. done.
Qed.

(** Conversely, every edge of a built index is one of the two edges of a
    pair above the threshold and carries that pair's weight. *)
Lemma index_edge_origin (pcs : list pair_item) (qm : quality_table)
    (ac : list Z) (t c c' : Z) (w : Q) :
  (c', w) ∈ edges_at (recommendation_index (init pcs qm ac t)) c ->
  exists c1 c2 n,
    ((c1, c2), n) ∈ pcs /\ t < n /\
    ((c1 = c /\ c2 = c') \/ (c2 = c /\ c1 = c')) /\
    w = pair_weight qm ((c1, c2), n).
Proof.
  unfold init. cbn [recommendation_index].
  rewrite elem_of_edges_at_build_index. intros [[[c1 c2] n] [He Hin]].
  apply elem_of_frequent_pairs in Hin as [Hlt Hin]. simpl in Hlt.
  exists c1, c2, n. split_and!; [done|done| |].
  - apply elem_of_edges_of_pair in He as [[-> [= -> _]]|[-> [= -> _]]]; tauto.
  - apply elem_of_edges_of_pair in He as [[_ [= _ ->]]|[_ [= _ ->]]]; done.
Qed.

Lemma edge_weight_formula_witness :
  exists w s1 s2,
    (102, w) ∈ edges_at (recommendation_index
       (init [((101, 102), 3)] [(101, (80 # 1)%Q)] [101; 102] 2)) 101 /\
    (101, w) ∈ edges_at (recommendation_index
       (init [((101, 102), 3)] [(101, (80 # 1)%Q)] [101; 102] 2)) 102 /\
    (w == inject_Z 3 * (s1 + s2) / 2)%Q /\
    (((101 ∉ [(101, (80 # 1)%Q)].*1) /\ s1 = (1 # 2)%Q /\ (s1 == 50 / 100)%Q) \/
     (exists q, (101, q) ∈ [(101, (80 # 1)%Q)] /\ s1 = (q / 100)%Q)) /\
    (((102 ∉ [(101, (80 # 1)%Q)].*1) /\ s2 = (1 # 2)%Q /\ (s2 == 50 / 100)%Q) \/
     (exists q, (102, q) ∈ [(101, (80 # 1)%Q)] /\ s2 = (q / 100)%Q)).
Proof.
  apply (edge_weight_formula [((101, 102), 3)] [(101, (80 # 1)%Q)] [101; 102] 2 101 102 3).
  - apply (bool_decide_unpack _). vm_compute. exact I.
  - lia.
Defined.

(** C4: in a built index every edge list is sorted by weight, descending,
    and the sort is stable: the list is a rearrangement of the list in
    insertion order (the course's entry before the per-course sort) in
    which, for every weight w, the edges of weight w occur in their
    insertion order. *)
Theorem index_sorted_stable (pcs : list pair_item) (qm : quality_table)
    (ac : list Z) (t c : Z) (edges : list edge) :
  recommendation_index (init pcs qm ac t) !! c = Some edges ->
  exists inserted,
    unsorted_index qm (frequent_pairs pcs t) !! c = Some inserted /\
    StronglySorted heavier edges /\
    edges ≡ₚ inserted /\
    forall w, filter (has_weight w) edges = filter (has_weight w) inserted.
Proof.
  unfold init. cbn [recommendation_index]. rewrite build_index_lookup.
  destruct (unsorted_index qm (frequent_pairs pcs t) !! c) as [inserted|];
    simpl; [|done].
  intros [= <-]. exists inserted. split; [done|]. split; [|split].
  - apply sort_edges_sorted.
  - apply sort_edges_perm.
  - intros w. apply sort_edges_stable.
Qed.

Lemma index_sorted_stable_witness :
  exists inserted,
    unsorted_index [(1, (50 # 1)%Q)]
      (frequent_pairs [((1, 2), 1); ((1, 3), 1); ((1, 4), 2)] 0) !! 1 = Some inserted /\
    StronglySorted heavier
      [(4, (400 # 400)%Q); (2, (200 # 400)%Q); (3, (200 # 400)%Q)] /\
    [(4, (400 # 400)%Q); (2, (200 # 400)%Q); (3, (200 # 400)%Q)] ≡ₚ inserted /\
    forall w,
      filter (has_weight w)
        [(4, (400 # 400)%Q); (2, (200 # 400)%Q); (3, (200 # 400)%Q)] =
      filter (has_weight w) inserted.
Proof.
  apply (index_sorted_stable [((1, 2), 1); ((1, 3), 1); ((1, 4), 2)]
           [(1, (50 # 1)%Q)] [1; 2; 3; 4] 0 1).
  vm_compute. reflexivity.
Defined.

Lemma count_edge_app (c : Z) (w : Q) (l1 l2 : list edge) :
  count_edge c w (l1 ++ l2) = (count_edge c w l1 + count_edge c w l2)%nat.
Proof. unfold count_edge. by rewrite filter_app, length_app. Qed.

Lemma count_edge_perm (c : Z) (w : Q) (l1 l2 : list edge) :
  l1 ≡ₚ l2 -> count_edge c w l1 = count_edge c w l2.
Proof. intros H. unfold count_edge. by rewrite H. Qed.

Lemma count_edge_pair_sym qm (c1 c2 : Z) (w : Q) (item : pair_item) :
  count_edge c2 w (edges_of_pair qm c1 item) =
  count_edge c1 w (edges_of_pair qm c2 item).
Proof.
  destruct item as [[a b] k]. unfold edges_of_pair.
  rewrite !count_edge_app.
  generalize (pair_weight qm ((a, b), k)). intros wt.
  destruct (decide (a = c1)), (decide (b = c2)),
    (decide (b = c1)), (decide (a = c2)); subst;
    unfold count_edge; rewrite ?filter_cons, ?filter_nil; simpl;
    repeat case_decide; simpl; try lia; try done.
Qed.

Lemma count_edge_inserted_sym qm (c1 c2 : Z) (w : Q) (pcs : list pair_item) :
  count_edge c2 w (inserted_edges qm c1 pcs) =
  count_edge c1 w (inserted_edges qm c2 pcs).
Proof.
  induction pcs as [|item pcs IH]; [done|].
  rewrite !inserted_edges_cons, !count_edge_app, IH.
  by rewrite (count_edge_pair_sym qm c1 c2 w item).
Qed.

(** C10: a built index is symmetric.  For all courses c1, c2 and every
    weight w, the entry (c2, w) occurs in the edge list of c1 as many
    times as the entry (c1, w) occurs in the edge list of c2; and every
    course that occurs as a candidate in some edge list has an edge list
    of its own. *)
Theorem index_symmetric (pcs : list pair_item) (qm : quality_table)
    (ac : list Z) (t c1 c2 : Z) (w : Q) :
  count_edge c2 w (edges_at (recommendation_index (init pcs qm ac t)) c1) =
  count_edge c1 w (edges_at (recommendation_index (init pcs qm ac t)) c2) /\
  ((c2, w) ∈ edges_at (recommendation_index (init pcs qm ac t)) c1 ->
   is_Some (recommendation_index (init pcs qm ac t) !! c2)).
Proof.
  unfold init. cbn [recommendation_index]. split.
  - rewrite !edges_at_build_index.
    rewrite !(count_edge_perm _ _ _ _ (sort_edges_perm _)).
    apply count_edge_inserted_sym.
  - rewrite elem_of_edges_at_build_index. intros [[[a b] k] [He Hin]].
    apply is_Some_build_index.
    exists (c1, pair_weight qm ((a, b), k)).
    apply elem_of_inserted_edges. exists ((a, b), k). split; [|done].
    apply elem_of_edges_of_pair in He. apply elem_of_edges_of_pair.
    destruct He as [[-> [= -> _]]|[-> [= -> _]]]; [by right|by left].
Qed.

(** ** The primary phase *)

Lemma walk_edges_length qm (n : Z) (mq : Q) (edges : list edge) (acc : list Z) :
  Z.of_nat (length acc) < n ->
  Z.of_nat (length (walk_edges qm n mq edges acc)) <= n.
Proof.
  revert acc. induction edges as [|[cand w] rest IH]; intros acc Hlt; simpl.
  - lia.
  - destruct (Qle_bool mq (_get_course_score qm cand * 100)).
    + case_bool_decide as Hn.
      * rewrite length_app. simpl. lia.
      * apply IH. lia.
    + case_bool_decide as Hn; [lia|]. by apply IH.
Qed.

Lemma get_recommendations_length (self : CourseRecommender) (c n : Z) (mq : Q) :
  1 <= n -> Z.of_nat (length (get_recommendations self c n mq)) <= n.
Proof.
  intros Hn. unfold get_recommendations.
  destruct (recommendation_index self !! c) as [edges|]; simpl; [|lia].
  apply walk_edges_length. simpl. lia.
Qed.

Lemma walk_edges_nonpositive qm (n : Z) (mq : Q) (edges : list edge) :
  n <= 0 ->
  walk_edges qm n mq edges [] =
    match edges with
    | [] => []
    | (cand, _) :: _ =>
        if Qle_bool mq (_get_course_score qm cand * 100) then [cand] else []
    end.
Proof.
  intros Hn. destruct edges as [|[cand w] rest]; simpl; [done|].
  destruct (Qle_bool mq (_get_course_score qm cand * 100)); simpl;
    rewrite bool_decide_eq_true_2 by lia; done.
Qed.

(** ** The backfill phase *)

Lemma random_choice_elem (rng : nat -> nat) (d : nat) (available : list Z) :
  available <> [] -> random_choice rng d available ∈ available.
Proof.
  intros Hne. unfold random_choice.
  assert (rng d mod length available < length available)%nat as Hlt.
  { apply Nat.mod_upper_bound. by destruct available. }
  apply lookup_lt_is_Some in Hlt as [x Hx]. rewrite Hx. simpl.
  by eapply list_elem_of_lookup_2.
Qed.

Lemma list_remove_perm (x : Z) (l : list Z) :
  x ∈ l -> l ≡ₚ x :: list_remove x l.
Proof.
  induction l as [|y l IH]; intros Hin; simpl.
  - by apply elem_of_nil in Hin.
  - destruct (decide (y = x)) as [->|Hne]; [done|].
    apply elem_of_cons in Hin as [->|Hin]; [done|].
    rewrite (IH Hin) at 1. apply Permutation_swap.
Qed.

Lemma backfill_loop_spec (fuel : nat) (rng : nat -> nat) (n : Z) (st : backfill_state) :
  (length (bf_available st) <= fuel)%nat ->
  exists drawn,
    bf_recs (backfill_loop fuel rng n st) = bf_recs st ++ drawn /\
    drawn ++ bf_available (backfill_loop fuel rng n st) ≡ₚ bf_available st /\
    bf_draws (backfill_loop fuel rng n st) = (bf_draws st + length drawn)%nat /\
    (Z.of_nat (length (bf_recs st)) <= n ->
     Z.of_nat (length (bf_recs (backfill_loop fuel rng n st))) <= n) /\
    ~ (Z.of_nat (length (bf_recs (backfill_loop fuel rng n st))) < n /\
       bf_available (backfill_loop fuel rng n st) <> []).
Proof.
  revert st. induction fuel as [|fuel IH]; intros st Hfuel; simpl.
  - exists []. rewrite app_nil_r. simpl. split_and!; [done|done|lia|done|].
    intros [_ Hne]. apply Hne. destruct (bf_available st); [done|simpl in Hfuel; lia].
  - case_bool_decide as Hcond.
    + destruct Hcond as [Hlt Hne].
      pose proof (random_choice_elem rng (bf_draws st) _ Hne) as Hin.
      set (x := random_choice rng (bf_draws st) (bf_available st)) in *.
      pose proof (list_remove_perm x _ Hin) as Hperm.
      destruct (IH {| bf_recs := bf_recs st ++ [x];
                      bf_available := list_remove x (bf_available st);
                      bf_draws := S (bf_draws st) |})
        as (drawn & Hrecs & Hav & Hdraws & Hlen & Hexit).
      { simpl. apply Permutation_length in Hperm. simpl in Hperm. lia. }
      simpl in *. exists (x :: drawn). split_and!.
      * by rewrite Hrecs, <- app_assoc.
      * simpl. by rewrite Hav, <- Hperm.
      * simpl. lia.
      * intros _. apply Hlen. rewrite length_app. simpl. lia.
      * done.
    + exists []. rewrite app_nil_r. simpl. split_and!; [done|done|lia|done|done].
Qed.

Lemma elem_of_high_quality_courses qm (mq : Q) (c x : Z) :
  x ∈ high_quality_courses qm mq c <->
  (exists q, (x, q) ∈ qm /\ (mq <= q)%Q) /\ x <> c.
Proof.
  unfold high_quality_courses. rewrite list_elem_of_fmap. split.
  - intros [[x' q] [-> Hin]]. apply list_elem_of_filter in Hin as [HP Hin].
    apply andb_True in HP as [Hq Hc]. simpl in *.
    apply Is_true_true, Qle_bool_iff in Hq.
    apply negb_True in Hc. rewrite Is_true_true, Z.eqb_eq in Hc.
    split; [by exists q|done].
  - intros [[q [Hin Hq]] Hc]. exists (x, q). split; [done|].
    apply list_elem_of_filter. split; [|done].
    apply andb_True. simpl. split.
    + by apply Is_true_true, Qle_bool_iff.
    + apply negb_True. by rewrite Is_true_true, Z.eqb_eq.
Qed.

Lemma elem_of_backfill_pool (self : CourseRecommender) (c : Z) (mq : Q)
    (recs : list Z) (x : Z) :
  x ∈ backfill_pool self c mq recs <->
  (exists q, (x, q) ∈ quality_metrics self /\ (mq <= q)%Q) /\ x <> c /\ x ∉ recs.
Proof.
  unfold backfill_pool, available_courses.
  rewrite list_elem_of_filter, elem_of_high_quality_courses. tauto.
Qed.

Lemma backfill_spec (self : CourseRecommender) (rng : nat -> nat) (draws : nat)
    (c n : Z) (mq : Q) (recs : list Z) :
  Z.of_nat (length recs) < n ->
  exists drawn,
    bf_recs (backfill self rng draws c n mq recs) = recs ++ drawn /\
    drawn ++ bf_available (backfill self rng draws c n mq recs)
      ≡ₚ backfill_pool self c mq recs /\
    bf_draws (backfill self rng draws c n mq recs) = (draws + length drawn)%nat /\
    Z.of_nat (length (recs ++ drawn)) <= n /\
    (Z.of_nat (length (recs ++ drawn)) = n \/
     bf_available (backfill self rng draws c n mq recs) = []).
Proof.
  intros Hlt. unfold backfill. rewrite bool_decide_eq_true_2 by done.
  set (st := {| bf_recs := recs;
                bf_available := backfill_pool self c mq recs;
                bf_draws := draws |}).
  destruct (backfill_loop_spec (length (backfill_pool self c mq recs)) rng n st)
    as (drawn & Hrecs & Hav & Hdraws & Hlen & Hexit); [done|].
  simpl in *. exists drawn. rewrite <- Hrecs.
  split_and!; [done|done|done|apply Hlen; lia|].
  destruct (decide (bf_available
    (backfill_loop (length (backfill_pool self c mq recs)) rng n st) = []))
    as [?|Hne]; [by right|left].
  specialize (Hlen ltac:(lia)).
  destruct (decide (Z.of_nat (length (bf_recs
    (backfill_loop (length (backfill_pool self c mq recs)) rng n st))) < n));
    [|lia].
  exfalso. by apply Hexit.
Qed.

Lemma elem_of_pad_none (n : Z) (recs : list Z) (x : Z) :
  Some x ∈ pad_none n recs <-> x ∈ recs.
Proof.
  unfold pad_none. rewrite elem_of_app, list_elem_of_fmap. split.
  - intros [[y [[= ->] Hy]]|Hrep]; [done|].
    by apply elem_of_replicate in Hrep as [? _].
  - intros Hx. left. by exists x.
Qed.

(** ** The resolver *)

(** C5, as the code has it.  When the primary phase accepted fewer than n
    candidates, the pool of the backfill phase consists of the courses that
    have a row in the quality table with a recorded score of at least
    min_quality, without course_id and without the accepted candidates (a
    course without a row is never in the pool).  The courses appended are
    drawn from that pool without replacement, the list never grows beyond
    n, and drawing stops only when the list has n entries or the pool is
    used up. *)
Theorem backfill_draws_from_quality_table (self : CourseRecommender)
    (rng : nat -> nat) (draws : nat) (c n : Z) (mq : Q) :
  Z.of_nat (length (get_recommendations self c n mq)) < n ->
  (forall x,
     x ∈ backfill_pool self c mq (get_recommendations self c n mq) <->
     (exists q, (x, q) ∈ quality_metrics self /\ (mq <= q)%Q) /\
     x <> c /\ x ∉ get_recommendations self c n mq) /\
  exists drawn remaining,
    (resolve self rng draws c n mq).1 =
      pad_none n (get_recommendations self c n mq ++ drawn) /\
    drawn ++ remaining
      ≡ₚ backfill_pool self c mq (get_recommendations self c n mq) /\
    (resolve self rng draws c n mq).2 = (draws + length drawn)%nat /\
    Z.of_nat (length (get_recommendations self c n mq ++ drawn)) <= n /\
    (Z.of_nat (length (get_recommendations self c n mq ++ drawn)) = n \/
     remaining = []).
Proof.
  intros Hlt. split; [intros x; apply elem_of_backfill_pool|].
  destruct (backfill_spec self rng draws c n mq _ Hlt)
    as (drawn & Hrecs & Hav & Hdraws & Hlen & Hexit).
  exists drawn,
    (bf_available (backfill self rng draws c n mq (get_recommendations self c n mq))).
  unfold resolve. simpl. rewrite Hrecs. done.
Qed.

Lemma backfill_draws_from_quality_table_witness :
  (forall x,
     x ∈ backfill_pool Scenario.unconnected 101 (50 # 1)
           (get_recommendations Scenario.unconnected 101 1 (50 # 1)) <->
     (exists q, (x, q) ∈ quality_metrics Scenario.unconnected /\ (50 # 1 <= q)%Q) /\
     x <> 101 /\ x ∉ get_recommendations Scenario.unconnected 101 1 (50 # 1)) /\
  exists drawn remaining,
    (resolve Scenario.unconnected (fun _ => 0%nat) 0 101 1 (50 # 1)).1 =
      pad_none 1 (get_recommendations Scenario.unconnected 101 1 (50 # 1) ++ drawn) /\
    drawn ++ remaining
      ≡ₚ backfill_pool Scenario.unconnected 101 (50 # 1)
           (get_recommendations Scenario.unconnected 101 1 (50 # 1)) /\
    (resolve Scenario.unconnected (fun _ => 0%nat) 0 101 1 (50 # 1)).2
      = (0 + length drawn)%nat /\
    Z.of_nat (length (get_recommendations Scenario.unconnected 101 1 (50 # 1) ++ drawn)) <= 1 /\
    (Z.of_nat (length (get_recommendations Scenario.unconnected 101 1 (50 # 1) ++ drawn)) = 1 \/
     remaining = []).
Proof.
  apply (backfill_draws_from_quality_table Scenario.unconnected (fun _ => 0%nat) 0 101 1 (50 # 1)).
  vm_compute. reflexivity.
Defined.

(** C5 as stated fails: course 2 belongs to the universe, has no quality
    row and so the default score 50 >= 50, is neither the queried course 1
    nor an accepted candidate, and yet is not in the pool the code draws
    from; the resolver returns two sentinels. *)
Lemma backfill_pool_ignores_unscored_courses :
  Z.of_nat (length (get_recommendations Sparse.recommender 1 2 (50 # 1))) < 2 /\
  (resolve Sparse.recommender (fun _ => 0%nat) 0 1 2 (50 # 1)).1 = [None; None] /\
  ~ (forall x,
       x ∈ backfill_pool Sparse.recommender 1 (50 # 1)
             (get_recommendations Sparse.recommender 1 2 (50 # 1)) <->
       spec_backfill_pool Sparse.recommender 1 (50 # 1)
             (get_recommendations Sparse.recommender 1 2 (50 # 1)) x).
Proof.
  split; [vm_compute; reflexivity|]. split; [vm_compute; reflexivity|].
  intros H. specialize (H 2). destruct H as [_ H].
  assert (2 ∈ backfill_pool Sparse.recommender 1 (50 # 1)
                (get_recommendations Sparse.recommender 1 2 (50 # 1))) as Hin.
  { apply H. unfold spec_backfill_pool. split_and!.
    - apply (bool_decide_unpack _). vm_compute. exact I.
    - vm_compute. discriminate.
    - lia.
    - vm_compute. apply not_elem_of_nil. }
  vm_compute in Hin. by apply elem_of_nil in Hin.
Qed.

Lemma high_quality_courses_without_row (qm : quality_table) (mq : Q) (c : Z) :
  high_quality_courses (filter (fun r : Z * Q => r.1 <> c) qm) mq c =
  high_quality_courses qm mq c.
Proof.
  unfold high_quality_courses. f_equal. apply list_filter_filter_l.
  intros r [_ Hc]%andb_True. apply negb_True in Hc.
  rewrite Is_true_true, Z.eqb_eq in Hc. done.
Qed.

Lemma get_course_score_absent (qm : quality_table) (c : Z) :
  c ∉ qm.*1 -> _get_course_score qm c = (1 # 2)%Q.
Proof.
  intros Hq. destruct (get_course_score_cases qm c) as [[_ ->]|[q [Hin _]]]; [done|].
  exfalso. apply Hq. apply list_elem_of_fmap. by exists (c, q).
Qed.

(** C6: a course without an entry in the index, whether or not it belongs
    to the course universe, is not an error.  [get_recommendations] returns
    the empty list, so the resolver goes straight to the backfill phase:
    its result consists of courses drawn from the backfill pool, padded
    with sentinels.  The pool does not contain the queried course, hence
    neither does the result.  The queried course is treated as a course
    with the default score 50: the result is the one obtained when the
    course has no quality record, in which case its score is the default
    0.5, that is 50. *)
Theorem unknown_course_goes_to_backfill (self : CourseRecommender)
    (rng : nat -> nat) (draws : nat) (c n : Z) (mq : Q) :
  recommendation_index self !! c = None ->
  call_get_recommendations self c n mq = Returns [] /\
  (exists drawn,
     (resolve self rng draws c n mq).1 = pad_none n drawn /\
     bf_recs (backfill self rng draws c n mq []) = drawn /\
     forall x, x ∈ drawn -> x ∈ backfill_pool self c mq []) /\
  (c ∉ backfill_pool self c mq []) /\
  (Some c ∉ (resolve self rng draws c n mq).1) /\
  resolve self rng draws c n mq =
    resolve (without_quality_row self c) rng draws c n mq /\
  (_get_course_score (quality_metrics (without_quality_row self c)) c * 100 == 50)%Q /\
  (c ∉ (quality_metrics self).*1 ->
   (_get_course_score (quality_metrics self) c * 100 == 50)%Q).
Proof.
  intros Hnone.
  assert (get_recommendations self c n mq = []) as Hprim
    by (unfold get_recommendations; by rewrite Hnone).
  assert (c ∉ backfill_pool self c mq []) as Hself.
  { rewrite elem_of_backfill_pool. tauto. }
  assert (forall x, x ∈ bf_recs (backfill self rng draws c n mq []) ->
                    x ∈ backfill_pool self c mq []) as Hdrawn.
  { intros x Hx. destruct (decide (Z.of_nat (length (@nil Z)) < n)) as [Hlt|Hge].
    - destruct (backfill_spec self rng draws c n mq [] Hlt)
        as (drawn & Hrecs & Hav & _).
      rewrite Hrecs in Hx. simpl in Hx. rewrite <- Hav.
      apply elem_of_app. by left.
    - unfold backfill in Hx. rewrite bool_decide_eq_false_2 in Hx by done.
      simpl in Hx. by apply elem_of_nil in Hx. }
  split_and!.
  - unfold call_get_recommendations. by rewrite Hprim.
  - exists (bf_recs (backfill self rng draws c n mq [])).
    unfold resolve. rewrite Hprim. done.
  - done.
  - unfold resolve. rewrite Hprim. simpl. rewrite elem_of_pad_none.
    intros Hin. by apply Hself, Hdrawn.
  - unfold resolve, get_recommendations, backfill, backfill_pool.
    cbn [recommendation_index quality_metrics without_quality_row].
    by rewrite high_quality_courses_without_row, !Hnone.
  - cbn [quality_metrics without_quality_row].
    rewrite get_course_score_absent; [done|].
    intros [[c' q] [Hc [Hne _]%list_elem_of_filter]]%list_elem_of_fmap.
    simpl in *. by subst.
  - intros Hq. by rewrite get_course_score_absent.
Qed.

Lemma unknown_course_goes_to_backfill_witness :
  call_get_recommendations Sparse.recommender 7 2 (50 # 1) = Returns [] /\
  (exists drawn,
     (resolve Sparse.recommender (fun _ => 0%nat) 0 7 2 (50 # 1)).1 = pad_none 2 drawn /\
     bf_recs (backfill Sparse.recommender (fun _ => 0%nat) 0 7 2 (50 # 1) []) = drawn /\
     forall x, x ∈ drawn -> x ∈ backfill_pool Sparse.recommender 7 (50 # 1) []) /\
  (7 ∉ backfill_pool Sparse.recommender 7 (50 # 1) []) /\
  (Some 7 ∉ (resolve Sparse.recommender (fun _ => 0%nat) 0 7 2 (50 # 1)).1) /\
  resolve Sparse.recommender (fun _ => 0%nat) 0 7 2 (50 # 1) =
    resolve (without_quality_row Sparse.recommender 7) (fun _ => 0%nat) 0 7 2 (50 # 1) /\
  (_get_course_score (quality_metrics (without_quality_row Sparse.recommender 7)) 7 * 100
   == 50)%Q /\
  (7 ∉ (quality_metrics Sparse.recommender).*1 ->
   (_get_course_score (quality_metrics Sparse.recommender) 7 * 100 == 50)%Q).
Proof.
  apply (unknown_course_goes_to_backfill Sparse.recommender (fun _ => 0%nat) 0 7 2 (50 # 1)).
  vm_compute. reflexivity.
Defined.

Lemma high_quality_courses_cons (r : Z * Q) (qm : quality_table) (mq : Q) (c : Z) :
  high_quality_courses (r :: qm) mq c =
    if Qle_bool mq r.2 && negb (r.1 =? c)
    then r.1 :: high_quality_courses qm mq c
    else high_quality_courses qm mq c.
Proof.
  unfold high_quality_courses. rewrite filter_cons.
  destruct (Qle_bool mq r.2 && negb (r.1 =? c)); simpl; done.
Qed.

Lemma high_quality_courses_subseteq (qm : quality_table) (mq : Q) (c x : Z) :
  x ∈ high_quality_courses qm mq c -> x ∈ qm.*1.
Proof.
  rewrite elem_of_high_quality_courses. intros [[q [Hin _]] _].
  apply list_elem_of_fmap. by exists (x, q).
Qed.

Lemma high_quality_courses_NoDup (qm : quality_table) (mq : Q) (c : Z) :
  NoDup qm.*1 -> NoDup (high_quality_courses qm mq c).
Proof.
  induction qm as [|r qm IH]; intros Hnd.
  - constructor.
  - rewrite fmap_cons in Hnd. apply NoDup_cons in Hnd as [Hr Hnd].
    rewrite high_quality_courses_cons.
    destruct (Qle_bool mq r.2 && negb (r.1 =? c)); [|by apply IH].
    apply NoDup_cons. split; [|by apply IH].
    intros Hin. by apply Hr, (high_quality_courses_subseteq qm mq c).
Qed.

Lemma high_quality_courses_length (qm : quality_table) (c : Z) :
  NoDup qm.*1 ->
  (forall r, r ∈ qm -> (0 <= r.2)%Q) ->
  (length qm <= length (high_quality_courses qm 0 c)
                + (if decide (c ∈ qm.*1) then 1 else 0))%nat.
Proof.
  induction qm as [|r qm IH]; intros Hnd Hpos; [simpl; lia|].
  rewrite fmap_cons in Hnd. apply NoDup_cons in Hnd as [Hr Hnd].
  assert (Qle_bool 0 r.2 = true) as Hq.
  { apply Qle_bool_iff, Hpos. by left. }
  assert (forall r', r' ∈ qm -> (0 <= r'.2)%Q) as Hpos'
    by (intros r' Hr'; apply Hpos; by right).
  specialize (IH Hnd Hpos').
  rewrite high_quality_courses_cons, Hq. simpl andb.
  destruct (Z.eqb_spec r.1 c) as [Heq|Hne]; simpl negb; cbv iota.
  - subst c. rewrite decide_False in IH by done.
    rewrite decide_True by (rewrite fmap_cons; by left).
    simpl. lia.
  - destruct (decide (c ∈ qm.*1)) as [Hin|Hnin].
    + rewrite decide_True by (rewrite fmap_cons; by right). simpl. lia.
    + rewrite decide_False; [simpl; lia|].
      rewrite fmap_cons. intros [?|?]%elem_of_cons; [congruence|done].
Qed.

Lemma length_filter_not_elem_of (l recs : list Z) :
  NoDup l ->
  (length l <= length (filter (fun x => x ∉ recs) l) + length recs)%nat.
Proof.
  intros Hnd.
  pose proof (filter_app_complement (fun x => x ∉ recs) l) as Hperm.
  apply Permutation_length in Hperm. rewrite length_app in Hperm.
  assert (length (filter (fun x => ~ (x ∉ recs)) l) <= length recs)%nat as Hle.
  { apply submseteq_length, NoDup_submseteq; [by apply NoDup_filter|].
    intros x [Hx _]%list_elem_of_filter. by apply dec_stable in Hx. }
  lia.
Qed.

Lemma pad_none_full (n : Z) (recs : list Z) :
  Z.of_nat (length recs) = n -> pad_none n recs = Some <$> recs.
Proof.
  intros Hn. unfold pad_none.
  replace (Z.to_nat (n - Z.of_nat (length recs))) with 0%nat by lia.
  simpl. by rewrite app_nil_r.
Qed.

Lemma non_sentinel_fmap_Some (l : list Z) : non_sentinel (Some <$> l) = length l.
Proof.
  unfold non_sentinel. induction l as [|x l IH]; [done|].
  rewrite fmap_cons, filter_cons_True by (by eexists). simpl. by rewrite IH.
Qed.

(** C7, as the code has it.  With min_quality = 0 and n >= 1, when the
    quality table records a non-negative score for at least n + 1 distinct
    courses, the resolver returns exactly n course ids and no sentinel,
    for every random source. *)
Theorem min_quality_zero_fills (self : CourseRecommender)
    (rng : nat -> nat) (draws : nat) (c n : Z) :
  1 <= n ->
  NoDup (quality_metrics self).*1 ->
  (forall r, r ∈ quality_metrics self -> (0 <= r.2)%Q) ->
  n + 1 <= Z.of_nat (length (quality_metrics self)) ->
  (exists l, (resolve self rng draws c n 0).1 = Some <$> l /\
             Z.of_nat (length l) = n) /\
  Z.of_nat (non_sentinel (resolve self rng draws c n 0).1) = n.
Proof.
  intros Hn Hnd Hpos Hrows.
  assert (exists l, (resolve self rng draws c n 0).1 = Some <$> l /\
                    Z.of_nat (length l) = n) as (l & Hl & Hlen).
  { unfold resolve. cbn [fst].
    pose proof (get_recommendations_length self c n 0 Hn) as Hprim.
    set (recs := get_recommendations self c n 0) in *.
    destruct (decide (Z.of_nat (length recs) < n)) as [Hlt|Hge].
    - destruct (backfill_spec self rng draws c n 0 recs Hlt)
        as (drawn & Hrecs & Hav & _ & Hle & Hexit).
      rewrite Hrecs. exists (recs ++ drawn).
      assert (Z.of_nat (length (recs ++ drawn)) = n) as Hfull.
      { destruct Hexit as [?|Hempty]; [done|].
        rewrite Hempty, app_nil_r in Hav. apply Permutation_length in Hav.
        pose proof (high_quality_courses_length (quality_metrics self) c Hnd Hpos) as Hhq.
        pose proof (length_filter_not_elem_of
          (high_quality_courses (quality_metrics self) 0 c) recs
          (high_quality_courses_NoDup _ _ _ Hnd)) as Hpool.
        fold (available_courses (high_quality_courses (quality_metrics self) 0 c) recs)
          in Hpool.
        fold (backfill_pool self c 0 recs) in Hpool.
        rewrite length_app in *.
        destruct (decide (c ∈ (quality_metrics self).*1)); lia. }
      split; [by apply pad_none_full|done].
    - exists recs. assert (Z.of_nat (length recs) = n) as Hfull by lia.
      unfold backfill. rewrite bool_decide_eq_false_2 by done. simpl.
      split; [by apply pad_none_full|done]. }
  split; [by exists l|].
  by rewrite Hl, non_sentinel_fmap_Some.
Qed.

Lemma min_quality_zero_fills_witness :
  (exists l, (resolve Scenario.recommender (fun _ => 0%nat) 0 101 2 0).1 = Some <$> l /\
             Z.of_nat (length l) = 2) /\
  Z.of_nat (non_sentinel (resolve Scenario.recommender (fun _ => 0%nat) 0 101 2 0).1) = 2.
Proof.
  apply (min_quality_zero_fills Scenario.recommender (fun _ => 0%nat) 0 101 2).
  - lia.
  - apply (bool_decide_unpack _). vm_compute. exact I.
  - apply Forall_forall. repeat constructor; vm_compute; discriminate.
  - vm_compute. discriminate.
Defined.

(** C7 as stated fails: the universe has three courses, n + 1 = 3, and
    with min_quality = 0 the resolver returns two sentinels for course 1:
    the backfill pool is taken from the quality table, which has a row for
    course 1 only. *)
Lemma min_quality_zero_sparse_table :
  size (all_courses Sparse.recommender) = 3%nat /\
  (resolve Sparse.recommender (fun _ => 0%nat) 0 1 2 0).1 = [None; None] /\
  non_sentinel (resolve Sparse.recommender (fun _ => 0%nat) 0 1 2 0).1 = 0%nat.
Proof. split_and!; vm_compute; reflexivity. Qed.

(** C8, as the code has it.  [get_recommendations] does not validate its
    arguments.  A call with n <= 0 is not rejected: it returns the empty
    list when the course has no index entry or its first-ranked candidate
    fails the quality test, and the one-element list of that candidate
    otherwise. *)
Theorem get_recommendations_unchecked (self : CourseRecommender) (c n : Z) (mq : Q) :
  n <= 0 ->
  call_get_recommendations self c n mq =
    Returns
      match recommendation_index self !! c with
      | Some ((cand, _) :: _) =>
          if Qle_bool mq (_get_course_score (quality_metrics self) cand * 100)
          then [cand] else []
      | _ => []
      end /\
  ~ rejects_invalid_argument (call_get_recommendations self c n mq).
Proof.
  intros Hn. split.
  - unfold call_get_recommendations, get_recommendations. f_equal.
    destruct (recommendation_index self !! c) as [edges|]; [|done].
    rewrite walk_edges_nonpositive by done. by destruct edges as [|[cand w] rest].
  - intros [e He]. discriminate He.
Qed.

Lemma get_recommendations_unchecked_witness :
  call_get_recommendations Scenario.recommender 101 (-1) (50 # 1) =
    Returns
      match recommendation_index Scenario.recommender !! 101 with
      | Some ((cand, _) :: _) =>
          if Qle_bool (50 # 1)
               (_get_course_score (quality_metrics Scenario.recommender) cand * 100)
          then [cand] else []
      | _ => []
      end /\
  ~ rejects_invalid_argument
      (call_get_recommendations Scenario.recommender 101 (-1) (50 # 1)).
Proof.
  apply (get_recommendations_unchecked Scenario.recommender 101 (-1) (50 # 1)). lia.
Defined.

(** C8 as stated fails: with n = -1 the call is not rejected; it returns
    the list [102], computed from the invalid value. *)
Lemma negative_n_not_rejected :
  call_get_recommendations Scenario.recommender 101 (-1) (50 # 1) = Returns [102] /\
  ~ rejects_invalid_argument
      (call_get_recommendations Scenario.recommender 101 (-1) (50 # 1)).
Proof.
  split; [vm_compute; reflexivity|]. intros [e He]. vm_compute in He. discriminate He.
Qed.

(** C9: for the purchase log {user1: [101, 102], user2: [101, 103],
    user3: [102, 103]} the aggregated pair counts are {(101, 102): 1,
    (101, 103): 1, (102, 103): 1}; with threshold 0 all three pairs are
    kept; with quality {101: 80, 102: 60, 103: 40} the edges of course 101
    are 102 with weight 0.70 and 103 with weight 0.60, in that order, and
    get_recommendations(101, n=1, min_quality=50) returns [102]. *)
Theorem scenario_recommends_102 :
  analyze_joint_purchases Scenario.purchases =
    [((101, 102), 1); ((101, 103), 1); ((102, 103), 1)] /\
  pair_counts Scenario.recommender =
    [((101, 102), 1); ((101, 103), 1); ((102, 103), 1)] /\
  (exists w102 w103,
     recommendation_index Scenario.recommender !! 101 =
       Some [(102, w102); (103, w103)] /\
     (w102 == 70 # 100)%Q /\ (w103 == 60 # 100)%Q) /\
  get_recommendations Scenario.recommender 101 1 (50 # 1) = [102] /\
  call_get_recommendations Scenario.recommender 101 1 (50 # 1) = Returns [102].
Proof.
  split_and!; try (vm_compute; reflexivity).
  exists (14000 # 20000)%Q, (12000 # 20000)%Q.
  split_and!; vm_compute; reflexivity.
Qed.

(** ** The pair aggregator *)

(** C1 fails on a log in which a user has two rows for one course (the
    same course bought in two carts): user 1 bought course 101 twice and
    course 102 once.  The aggregated counts contain the pair (101, 101),
    whose two ids are equal, and count 2 for the pair (101, 102), which a
    single user purchased. *)
Theorem repeated_purchase_row_counts :
  analyze_joint_purchases [(1, 101); (1, 101); (1, 102)] =
    [((101, 101), 1); ((101, 102), 2)] /\
  group_keys [(1, 101); (1, 101); (1, 102)] = [1].
Proof. split; vm_compute; reflexivity. Qed.

(** *** [Counter] *)

Lemma count_in_app (k : Z * Z) (l1 l2 : list (Z * Z)) :
  count_in k (l1 ++ l2) = (count_in k l1 + count_in k l2)%nat.
Proof. unfold count_in. by rewrite filter_app, length_app. Qed.

Lemma count_in_zero (k : Z * Z) (l : list (Z * Z)) :
  count_in k l = 0%nat <-> k ∉ l.
Proof.
  unfold count_in. induction l as [|x l IH]; simpl.
  - split; [intros _; apply not_elem_of_nil|done].
  - rewrite filter_cons, not_elem_of_cons.
    destruct (decide (x = k)) as [->|Hne]; simpl.
    + split; [lia|]. by intros [? _].
    + rewrite IH. split; [by split|by intros [_ ?]].
Qed.

Lemma count_in_NoDup (k : Z * Z) (l : list (Z * Z)) :
  NoDup l -> count_in k l = if decide (k ∈ l) then 1%nat else 0%nat.
Proof.
  intros Hnd. destruct (decide (k ∈ l)) as [Hin|Hnin];
    [|by apply count_in_zero].
  induction Hnd as [|x l Hx Hnd IH]; [by apply elem_of_nil in Hin|].
  change (x :: l) with ([x] ++ l). rewrite count_in_app.
  apply elem_of_cons in Hin as [->|Hin].
  - apply count_in_zero in Hx. rewrite Hx. unfold count_in.
    by rewrite filter_cons_True.
  - rewrite (IH Hin). unfold count_in. rewrite filter_cons_False; [done|].
    intros ->. done.
Qed.

Lemma count_in_singleton (k k' : Z * Z) :
  count_in k [k'] = if decide (k' = k) then 1%nat else 0%nat.
Proof. unfold count_in. rewrite filter_cons. by destruct (decide (k' = k)). Qed.

Lemma list_to_map_counter_incr (k : Z * Z) (c : list pair_item) :
  (list_to_map (counter_incr k c) : gmap (Z * Z) Z) =
  <[k := default 0 ((list_to_map c : gmap (Z * Z) Z) !! k) + 1]> (list_to_map c).
Proof.
  induction c as [|[k' m] c IH]; simpl; [done|].
  destruct (decide (k' = k)) as [->|Hne]; simpl.
  - by rewrite lookup_insert_eq, insert_insert_eq.
  - rewrite IH, lookup_insert_ne by done. by apply insert_insert_ne.
Qed.

Lemma counter_incr_keys (k : Z * Z) (c : list pair_item) :
  (counter_incr k c).*1 = if decide (k ∈ c.*1) then c.*1 else c.*1 ++ [k].
Proof.
  induction c as [|[k' m] c IH].
  - by rewrite decide_False by apply not_elem_of_nil.
  - cbn [counter_incr]. destruct (decide (k' = k)) as [->|Hne]; rewrite !fmap_cons.
    + rewrite decide_True by (by left). done.
    + rewrite IH. destruct (decide (k ∈ c.*1)) as [Hin|Hnin].
      * rewrite decide_True by (by right). done.
      * rewrite decide_False; [done|].
        rewrite not_elem_of_cons. by split.
Qed.

Lemma counter_incr_NoDup (k : Z * Z) (c : list pair_item) :
  NoDup c.*1 -> NoDup (counter_incr k c).*1.
Proof.
  intros Hnd. rewrite counter_incr_keys.
  destruct (decide (k ∈ c.*1)); [done|].
  apply NoDup_app. split_and!; [done| |apply NoDup_singleton].
  intros x Hx ->%list_elem_of_singleton. done.
Qed.

Lemma Counter_snoc (l : list (Z * Z)) (k : Z * Z) :
  Counter (l ++ [k]) = counter_incr k (Counter l).
Proof. unfold Counter. by rewrite fold_left_app. Qed.

Lemma Counter_NoDup (l : list (Z * Z)) : NoDup (Counter l).*1.
Proof.
  induction l as [|k l IH] using rev_ind; [constructor|].
  rewrite Counter_snoc. by apply counter_incr_NoDup.
Qed.

Lemma Counter_lookup (l : list (Z * Z)) (k : Z * Z) :
  (list_to_map (Counter l) : gmap (Z * Z) Z) !! k =
    if decide (k ∈ l) then Some (Z.of_nat (count_in k l)) else None.
Proof.
  induction l as [|k' l IH] using rev_ind.
  - rewrite decide_False by apply not_elem_of_nil. done.
  - rewrite Counter_snoc, list_to_map_counter_incr, count_in_app.
    destruct (decide (k' = k)) as [->|Hne].
    + rewrite lookup_insert_eq, IH.
      rewrite (decide_True (P := k ∈ l ++ [k]))
        by (apply elem_of_app; right; by left).
      f_equal. rewrite count_in_singleton, (decide_True (P := k = k)) by done.
      destruct (decide (k ∈ l)) as [Hin|Hnin]; simpl.
      * lia.
      * apply count_in_zero in Hnin. lia.
    + rewrite lookup_insert_ne, IH by done.
      rewrite count_in_singleton, (decide_False (P := k' = k)) by done.
      rewrite Nat.add_0_r.
      destruct (decide (k ∈ l)) as [Hin|Hnin].
      * rewrite decide_True by (apply elem_of_app; by left). done.
      * rewrite decide_False; [done|].
        rewrite elem_of_app, list_elem_of_singleton. intros [?|?]; [done|by subst].
Qed.

Lemma elem_of_Counter (l : list (Z * Z)) (k : Z * Z) (n : Z) :
  (k, n) ∈ Counter l <-> k ∈ l /\ n = Z.of_nat (count_in k l).
Proof.
  rewrite (elem_of_list_to_map (M := gmap (Z * Z))) by apply Counter_NoDup.
  rewrite Counter_lookup. destruct (decide (k ∈ l)); [|by split; [|intros [? _]]].
  split; [by intros [= <-]|by intros [_ ->]].
Qed.

(** *** Pairs of one user *)

Lemma elem_of_combinations2 (l : list Z) (a b : Z) :
  (a, b) ∈ combinations2 l -> a ∈ l /\ b ∈ l.
Proof.
  induction l as [|x l IH]; simpl; [by intros ?%elem_of_nil|].
  rewrite elem_of_app, list_elem_of_fmap.
  intros [[y [[= -> ->] Hy]]|Hin].
  - split; [by left|by right].
  - destruct (IH Hin). split; by right.
Qed.

Lemma combinations2_NoDup (l : list Z) : NoDup l -> NoDup (combinations2 l).
Proof.
  induction 1 as [|x l Hx Hnd IH]; simpl; [constructor|].
  apply NoDup_app. split_and!; [|clear IH|done].
  - apply NoDup_fmap_2; [|done]. by intros y1 y2 [= ->].
  - intros [a b] [y [[= -> ->] Hy]]%list_elem_of_fmap Hin.
    by apply elem_of_combinations2 in Hin as [? _].
Qed.

Lemma elem_of_combinations2_sorted (l : list Z) (a b : Z) :
  StronglySorted Z.le l -> NoDup l ->
  (a, b) ∈ combinations2 l <-> a ∈ l /\ b ∈ l /\ a < b.
Proof.
  intros Hs Hnd. induction Hs as [|x l Hs IH Hall]; simpl.
  - split; [by intros ?%elem_of_nil|]. by intros [?%elem_of_nil _].
  - apply NoDup_cons in Hnd as [Hx Hnd]. specialize (IH Hnd).
    rewrite Forall_forall in Hall.
    rewrite elem_of_app, list_elem_of_fmap, IH, !elem_of_cons. split.
    + intros [[y [[= -> ->] Hy]]|(Ha & Hb & Hlt)].
      * split_and!; [by left|by right|].
        pose proof (Hall _ Hy). assert (x <> y) by (by intros ->). lia.
      * split_and!; [by right|by right|done].
    + intros ([->|Ha] & [->|Hb] & Hlt).
      * lia.
      * left. by exists b.
      * pose proof (Hall _ Ha). lia.
      * by right.
Qed.

Lemma two_elements (l : list Z) (a b : Z) :
  a ∈ l -> b ∈ l -> a <> b -> (2 <= length l)%nat.
Proof.
  destruct l as [|x [|y l]]; simpl; intros Ha Hb Hne; [|exfalso|lia].
  - by apply elem_of_nil in Ha.
  - apply list_elem_of_singleton in Ha, Hb. congruence.
Qed.

Lemma merge_sort_strongly_sorted (l : list Z) : StronglySorted Z.le (merge_sort Z.le l).
Proof. apply StronglySorted_merge_sort; apply _. Qed.

Lemma pairs_of_user_NoDup (courses : list Z) :
  NoDup courses -> NoDup (pairs_of_user courses).
Proof.
  intros Hnd. unfold pairs_of_user. case_bool_decide; [|constructor].
  apply combinations2_NoDup. by rewrite merge_sort_Permutation.
Qed.

Lemma elem_of_pairs_of_user (courses : list Z) (a b : Z) :
  NoDup courses ->
  (a, b) ∈ pairs_of_user courses <-> a ∈ courses /\ b ∈ courses /\ a < b.
Proof.
  intros Hnd. unfold pairs_of_user. case_bool_decide as Hlen.
  - rewrite elem_of_combinations2_sorted;
      [|apply merge_sort_strongly_sorted|by rewrite merge_sort_Permutation].
    by rewrite !merge_sort_Permutation.
  - split; [by intros ?%elem_of_nil|]. intros (Ha & Hb & Hlt).
    exfalso. apply Hlen. apply (two_elements courses a b); [done|done|lia].
Qed.

(** *** Rows of one user *)

Lemma elem_of_courses_of (purchase_data : list purchase_row) (u a : Z) :
  a ∈ courses_of purchase_data u <-> (u, a) ∈ purchase_data.
Proof.
  unfold courses_of. rewrite list_elem_of_fmap. split.
  - intros [[u' a'] [-> [Hu Hin]%list_elem_of_filter]]. simpl in *. by subst.
  - intros Hin. exists (u, a). split; [done|]. by apply list_elem_of_filter.
Qed.

Lemma courses_of_NoDup (purchase_data : list purchase_row) (u : Z) :
  NoDup purchase_data -> NoDup (courses_of purchase_data u).
Proof.
  intros Hnd. unfold courses_of. apply NoDup_fmap_2_strong; [|by apply NoDup_filter].
  intros [u1 a1] [u2 a2] [Hu1 _]%list_elem_of_filter [Hu2 _]%list_elem_of_filter.
  simpl in *. congruence.
Qed.

Lemma group_keys_perm (purchase_data : list purchase_row) :
  group_keys purchase_data ≡ₚ remove_dups purchase_data.*1.
Proof. apply merge_sort_Permutation. Qed.

(** *** The aggregate *)

Lemma count_in_bind_NoDup (k : Z * Z) (f : Z -> list (Z * Z)) (us : list Z) :
  (forall u, NoDup (f u)) ->
  count_in k (us ≫= f) = length (filter (fun u => k ∈ f u) us).
Proof.
  intros Hnd. induction us as [|u us IH]; [done|].
  rewrite bind_cons, count_in_app, IH, (count_in_NoDup k (f u)) by done.
  rewrite filter_cons. by destruct (decide (k ∈ f u)).
Qed.

Lemma all_pairs_bind (purchase_data : list purchase_row) :
  all_pairs purchase_data =
  group_keys purchase_data ≫= (fun u => pairs_of_user (courses_of purchase_data u)).
Proof.
  unfold all_pairs, user_courses.
  induction (group_keys purchase_data) as [|u us IH]; [done|].
  by rewrite fmap_cons, !bind_cons, IH.
Qed.

(** The aggregator on logs without a repeated row: every pair of the
    result is a pair of two distinct course ids, smaller id first, and its
    count is the number of distinct users who purchased both courses. *)
Lemma analyze_joint_purchases_distinct_rows (purchase_data : list purchase_row)
    (a b k : Z) :
  NoDup purchase_data ->
  ((a, b), k) ∈ analyze_joint_purchases purchase_data ->
  a < b /\ k = Z.of_nat (users_with_both purchase_data a b).
Proof.
  intros Hnd. unfold analyze_joint_purchases.
  rewrite elem_of_Counter, all_pairs_bind. intros [Hin ->].
  apply list_elem_of_bind in Hin as (u & Hu & _).
  apply elem_of_pairs_of_user in Hu as (_ & _ & Hlt); [|by apply courses_of_NoDup].
  split; [done|]. f_equal.
  rewrite count_in_bind_NoDup
    by (intros u'; by apply pairs_of_user_NoDup, courses_of_NoDup).
  unfold users_with_both. rewrite <- (group_keys_perm purchase_data).
  f_equal. apply list_filter_iff. intros u'.
  rewrite elem_of_pairs_of_user by (by apply courses_of_NoDup).
  rewrite !elem_of_courses_of. tauto.
Qed.

(** Conversely, every pair of distinct courses that some user purchased
    together is a key of the result. *)
Lemma analyze_joint_purchases_complete (purchase_data : list purchase_row)
    (u a b : Z) :
  NoDup purchase_data ->
  (u, a) ∈ purchase_data -> (u, b) ∈ purchase_data -> a < b ->
  ((a, b), Z.of_nat (users_with_both purchase_data a b))
    ∈ analyze_joint_purchases purchase_data.
Proof.
  intros Hnd Ha Hb Hlt.
  assert ((a, b) ∈ all_pairs purchase_data) as Hin.
  { rewrite all_pairs_bind. apply list_elem_of_bind. exists u. split.
    - apply elem_of_pairs_of_user; [by apply courses_of_NoDup|].
      by rewrite !elem_of_courses_of.
    - rewrite group_keys_perm, elem_of_remove_dups.
      apply list_elem_of_fmap. by exists (u, a). }
  assert (((a, b), Z.of_nat (count_in (a, b) (all_pairs purchase_data)))
            ∈ analyze_joint_purchases purchase_data) as Hc.
  { unfold analyze_joint_purchases. by apply elem_of_Counter. }
  destruct (analyze_joint_purchases_distinct_rows purchase_data a b _ Hnd Hc)
    as [_ Heq].
  by rewrite <- Heq.
Qed.

(** ** The batch table *)

(** With the default n = 2 the table of the scenario has one row per course,
    in ascending order of course id. *)
Example scenario_table :
  match get_all_recommendations Scenario.recommender (fun _ => 0%nat) 2 (50 # 1) with
  | Returns rows =>
      (fun r : RecommendationRecord => (course_id r, recomm_one r, recomm_two r)) <$> rows
  | Raises _ => []
  end
  = [(101, Some 102, None); (102, Some 101, None); (103, Some 101, Some 102)].
Proof. vm_compute. reflexivity. Qed.

(** The row of a course reads [recs[0]] and [recs[1]]: with n = 1 the second
    subscript is out of range. *)
Example scenario_table_one_slot :
  get_all_recommendations Scenario.recommender (fun _ => 0%nat) 1 (50 # 1)
  = Raises IndexError.
Proof. vm_compute. reflexivity. Qed.

(** * Further properties of the recommender *)

(** ** The primary phase as a filter *)

Lemma walk_edges_take qm (n : Z) (mq : Q) (edges : list edge) (acc : list Z) :
  Z.of_nat (length acc) < n ->
  walk_edges qm n mq edges acc =
    acc ++ take (Z.to_nat n - length acc)
             (filter (fun x => passes_quality qm mq x) edges.*1).
Proof.
  revert acc. induction edges as [|[cand w] rest IH]; intros acc Hlt.
  - cbn [walk_edges]. by rewrite fmap_nil, filter_nil, take_nil, app_nil_r.
  - cbn [walk_edges]. rewrite fmap_cons, filter_cons. cbn [fst].
    destruct (decide (passes_quality qm mq cand)) as [Hp|Hp].
    + apply Is_true_true in Hp. unfold passes_quality in Hp. rewrite Hp.
      replace (Z.to_nat n - length acc)%nat
        with (S (Z.to_nat n - length (acc ++ [cand])))
        by (rewrite length_app; simpl; lia).
      cbn [take]. case_bool_decide as Hn.
      * replace (Z.to_nat n - length (acc ++ [cand]))%nat with 0%nat by lia.
        by rewrite take_0.
      * rewrite IH by lia. by rewrite <- app_assoc.
    + apply Is_true_false in Hp. unfold passes_quality in Hp. rewrite Hp.
      rewrite bool_decide_eq_false_2 by lia. by apply IH.
Qed.

(** For n >= 1, [get_recommendations] returns the first n candidates of the
    course's edge list, in the order of the list, among those that pass the
    quality test; the weights play no further part. *)
Theorem get_recommendations_first_n (self : CourseRecommender) (c n : Z) (mq : Q) :
  1 <= n ->
  get_recommendations self c n mq =
    take (Z.to_nat n)
      (filter (fun x => passes_quality (quality_metrics self) mq x)
         (edges_at (recommendation_index self) c).*1).
Proof.
  intros Hn. unfold get_recommendations, edges_at.
  destruct (recommendation_index self !! c) as [edges|]; cbn [default].
  - rewrite walk_edges_take by (simpl; lia). simpl. by rewrite Nat.sub_0_r.
  - by rewrite fmap_nil, filter_nil, take_nil.
Qed.

Lemma get_recommendations_first_n_witness :
  get_recommendations Scenario.recommender 103 1 (50 # 1) =
    take (Z.to_nat 1)
      (filter (fun x => passes_quality (quality_metrics Scenario.recommender) (50 # 1) x)
         (edges_at (recommendation_index Scenario.recommender) 103).*1).
Proof. apply (get_recommendations_first_n Scenario.recommender 103 1 (50 # 1)). lia. Defined.

Lemma walk_edges_sublist qm (n : Z) (mq : Q) (edges : list edge) (acc : list Z) :
  exists l,
    walk_edges qm n mq edges acc = acc ++ l /\
    l `sublist_of` edges.*1 /\
    Forall (fun x => passes_quality qm mq x) l.
Proof.
  revert acc. induction edges as [|[cand w] rest IH]; intros acc.
  - exists []. by rewrite app_nil_r.
  - cbn [walk_edges]. rewrite fmap_cons. cbn [fst].
    destruct (Qle_bool mq (_get_course_score qm cand * 100)) eqn:Hq.
    + case_bool_decide as Hn.
      * exists [cand]. split_and!; [done| |].
        -- apply sublist_skip, sublist_nil_l.
        -- constructor; [|done]. unfold passes_quality. by rewrite Hq.
      * destruct (IH (acc ++ [cand])) as (l & -> & Hsub & Hall).
        exists (cand :: l). split_and!.
        -- by rewrite <- app_assoc.
        -- by apply sublist_skip.
        -- constructor; [|done]. unfold passes_quality. by rewrite Hq.
    + case_bool_decide as Hn.
      * exists []. rewrite app_nil_r. split_and!; [done|apply sublist_nil_l|done].
      * destruct (IH acc) as (l & -> & Hsub & Hall).
        exists l. split_and!; [done|by apply sublist_cons|done].
Qed.

Lemma get_recommendations_sublist (self : CourseRecommender) (c n : Z) (mq : Q) :
  get_recommendations self c n mq
    `sublist_of` (edges_at (recommendation_index self) c).*1 /\
  Forall (fun x => passes_quality (quality_metrics self) mq x)
    (get_recommendations self c n mq).
Proof.
  unfold get_recommendations, edges_at.
  destruct (recommendation_index self !! c) as [edges|]; simpl; [|done].
  destruct (walk_edges_sublist (quality_metrics self) n mq edges [])
    as (l & -> & Hsub & Hall). done.
Qed.

(** ** Shape and content of the resolver's result *)

Lemma resolve_decompose (self : CourseRecommender) (rng : nat -> nat) (draws : nat)
    (c n : Z) (mq : Q) :
  exists drawn remaining,
    (resolve self rng draws c n mq).1 =
      pad_none n (get_recommendations self c n mq ++ drawn) /\
    drawn ++ remaining
      ≡ₚ backfill_pool self c mq (get_recommendations self c n mq) /\
    (1 <= n ->
     Z.of_nat (length (get_recommendations self c n mq ++ drawn)) <= n).
Proof.
  destruct (decide (Z.of_nat (length (get_recommendations self c n mq)) < n))
    as [Hlt|Hge].
  - destruct (backfill_spec self rng draws c n mq _ Hlt)
      as (drawn & Hrecs & Hav & _ & Hlen & _).
    exists drawn, (bf_available
      (backfill self rng draws c n mq (get_recommendations self c n mq))).
    unfold resolve. cbn [fst]. by rewrite Hrecs.
  - exists [], (backfill_pool self c mq (get_recommendations self c n mq)).
    unfold resolve, backfill. rewrite bool_decide_eq_false_2 by done.
    cbn [fst bf_recs]. rewrite app_nil_r. split_and!; [done|done|].
    apply get_recommendations_length.
Qed.


Lemma elem_of_resolve (self : CourseRecommender) (rng : nat -> nat) (draws : nat)
    (c n : Z) (mq : Q) (x : Z) :
  Some x ∈ (resolve self rng draws c n mq).1 ->
  x ∈ get_recommendations self c n mq \/
  x ∈ backfill_pool self c mq (get_recommendations self c n mq).
Proof.
  destruct (resolve_decompose self rng draws c n mq)
    as (drawn & remaining & -> & Hperm & _).
  rewrite elem_of_pad_none, elem_of_app. intros [?|Hd]; [by left|right].
  rewrite <- Hperm. apply elem_of_app. by left.
Qed.





Lemma resolve_padded (self : CourseRecommender) (rng : nat -> nat)
    (draws : nat) (c n : Z) (mq : Q) :
  1 <= n ->
  exists l,
    (resolve self rng draws c n mq).1 = pad_none n l /\
    Z.of_nat (length l) <= n.
Proof.
  intros Hn.
  destruct (resolve_decompose self rng draws c n mq)
    as (drawn & remaining & Hres & _ & Hlen).
  exists (get_recommendations self c n mq ++ drawn). split; [done|by apply Hlen].
Qed.

Lemma pad_none_length (n : Z) (l : list Z) :
  Z.of_nat (length l) <= n -> Z.of_nat (length (pad_none n l)) = n.
Proof.
  intros Hl. unfold pad_none.
  rewrite length_app, length_fmap, length_replicate. lia.
Qed.

(** For n >= 1 the resolver returns exactly n slots: course ids first,
    sentinels after them. *)
Theorem resolve_n_slots (self : CourseRecommender) (rng : nat -> nat)
    (draws : nat) (c n : Z) (mq : Q) :
  1 <= n ->
  exists l k,
    (resolve self rng draws c n mq).1 = (Some <$> l) ++ replicate k None /\
    Z.of_nat (length l) + Z.of_nat k = n /\
    Z.of_nat (length (resolve self rng draws c n mq).1) = n.
Proof.
  intros Hn.
  destruct (resolve_padded self rng draws c n mq Hn) as (l & Hres & Hlen).
  exists l, (Z.to_nat (n - Z.of_nat (length l))). rewrite Hres. split_and!.
  - done.
  - lia.
  - by apply pad_none_length.
Qed.

Lemma resolve_n_slots_witness :
  exists l k,
    (resolve Scenario.recommender (fun _ => 0%nat) 0 101 2 (50 # 1)).1
      = (Some <$> l) ++ replicate k None /\
    Z.of_nat (length l) + Z.of_nat k = 2 /\
    Z.of_nat (length (resolve Scenario.recommender (fun _ => 0%nat) 0 101 2 (50 # 1)).1) = 2.
Proof.
  apply (resolve_n_slots Scenario.recommender (fun _ => 0%nat) 0 101 2 (50 # 1)). lia.
Defined.



(** ** Self recommendations and repetitions *)

Lemma candidate_has_edge (index : gmap Z (list edge)) (c x : Z) :
  x ∈ (edges_at index c).*1 -> exists w, (x, w) ∈ edges_at index c.
Proof.
  intros [[x' w] [-> Hin]]%list_elem_of_fmap. by exists w.
Qed.

Lemma primary_never_self (pcs : list pair_item) (qm : quality_table)
    (ac : list Z) (t c n : Z) (mq : Q) :
  (forall a b k, ((a, b), k) ∈ pcs -> a <> b) ->
  c ∉ get_recommendations (init pcs qm ac t) c n mq.
Proof.
  intros Hpairs Hx.
  destruct (get_recommendations_sublist (init pcs qm ac t) c n mq) as [Hsub _].
  pose proof (elem_of_sublist _ _ _ Hx Hsub) as Hc.
  apply candidate_has_edge in Hc as [w Hw].
  apply index_edge_origin in Hw as (c1 & c2 & k & Hin & _ & Hends & _).
  apply Hpairs in Hin. destruct Hends as [[-> ->]|[-> ->]]; done.
Qed.

Lemma pool_never_self (self : CourseRecommender) (c : Z) (mq : Q) (recs : list Z) :
  c ∉ backfill_pool self c mq recs.
Proof. intros (_ & Hne & _)%elem_of_backfill_pool. done. Qed.

(** When no key of the pair counts pairs a course with itself, the
    resolver never recommends the queried course to itself. *)
Theorem resolve_never_self (pcs : list pair_item) (qm : quality_table)
    (ac : list Z) (t : Z) (rng : nat -> nat) (draws : nat) (c n : Z) (mq : Q) :
  (forall a b k, ((a, b), k) ∈ pcs -> a <> b) ->
  Some c ∉ (resolve (init pcs qm ac t) rng draws c n mq).1.
Proof.
  intros Hpairs Hx. apply elem_of_resolve in Hx as [Hprimary|Hpool].
  - by apply (primary_never_self pcs qm ac t c n mq Hpairs).
  - by apply pool_never_self in Hpool.
Qed.

Lemma resolve_never_self_witness :
  Some 101 ∉ (resolve
    (init (analyze_joint_purchases Scenario.purchases) Scenario.quality Scenario.courses 0)
    (fun _ => 0%nat) 0 101 2 (50 # 1)).1.
Proof.
  apply (resolve_never_self (analyze_joint_purchases Scenario.purchases)
           Scenario.quality Scenario.courses 0 (fun _ => 0%nat) 0 101 2 (50 # 1)).
  intros a b k Hin. vm_compute in Hin.
  repeat (apply elem_of_cons in Hin as [[= -> -> ->]|Hin]; [lia|]).
  by apply elem_of_nil in Hin.
Defined.

Lemma frequent_pairs_sublist (pcs : list pair_item) (t : Z) :
  frequent_pairs pcs t `sublist_of` pcs.
Proof. unfold frequent_pairs. apply sublist_filter. Qed.

Lemma inserted_edges_candidates_NoDup qm (c : Z) (pcs : list pair_item) :
  NoDup pcs.*1 ->
  (forall a b k, ((a, b), k) ∈ pcs -> a < b) ->
  NoDup (inserted_edges qm c pcs).*1.
Proof.
  induction pcs as [|[[a b] k] pcs IH]; intros Hnd Hlt; [constructor|].
  rewrite fmap_cons in Hnd. apply NoDup_cons in Hnd as [Hkey Hnd]. cbn [fst] in Hkey.
  assert (a < b) as Hab by (apply (Hlt a b k); by left).
  assert (forall a' b' k', ((a', b'), k') ∈ pcs -> a' < b') as Hlt'
    by (intros a' b' k' Hin; apply (Hlt a' b' k'); by right).
  specialize (IH Hnd Hlt').
  rewrite inserted_edges_cons, fmap_app. apply NoDup_app. split_and!; [| |done].
  - unfold edges_of_pair.
    destruct (decide (a = c)), (decide (b = c)); simpl;
      [lia|apply NoDup_singleton|apply NoDup_singleton|constructor].
  - intros x Hx Hrest.
    apply list_elem_of_fmap in Hx as [[x' w] [-> Hx]]. cbn [fst] in *.
    apply list_elem_of_fmap in Hrest as [[x'' w'] [Heq Hrest]]. cbn [fst] in Heq.
    subst x''.
    apply elem_of_inserted_edges in Hrest as [[[a' b'] k'] [He Hin]].
    pose proof (Hlt' _ _ _ Hin) as Hab'.
    assert ((a', b') ∈ pcs.*1) as Hkey'
      by (apply list_elem_of_fmap; by exists ((a', b'), k')).
    apply elem_of_edges_of_pair in Hx, He.
    destruct Hx as [[Ha Hxe]|[Hb Hxe]]; destruct He as [[Ha' Hxe']|[Hb' Hxe']];
      simplify_eq; try lia; done.
Qed.

Lemma primary_NoDup (pcs : list pair_item) (qm : quality_table)
    (ac : list Z) (t c n : Z) (mq : Q) :
  NoDup pcs.*1 ->
  (forall a b k, ((a, b), k) ∈ pcs -> a < b) ->
  NoDup (get_recommendations (init pcs qm ac t) c n mq).
Proof.
  intros Hkeys Hlt.
  destruct (get_recommendations_sublist (init pcs qm ac t) c n mq) as [Hsub _].
  eapply sublist_NoDup; [|exact Hsub].
  unfold init. cbn [recommendation_index].
  rewrite edges_at_build_index, sort_edges_perm.
  apply inserted_edges_candidates_NoDup.
  - eapply sublist_NoDup; [exact Hkeys|]. apply fmap_sublist, frequent_pairs_sublist.
  - intros a b k Hin. apply (Hlt a b k).
    by apply (elem_of_sublist _ _ _ Hin), frequent_pairs_sublist.
Qed.

Lemma resolve_NoDup_of_primary (self : CourseRecommender) (rng : nat -> nat)
    (draws : nat) (c n : Z) (mq : Q) :
  NoDup (quality_metrics self).*1 ->
  NoDup (get_recommendations self c n mq) ->
  exists drawn,
    (resolve self rng draws c n mq).1 =
      pad_none n (get_recommendations self c n mq ++ drawn) /\
    NoDup (get_recommendations self c n mq ++ drawn) /\
    (forall x, x ∈ drawn ->
       x ∈ backfill_pool self c mq (get_recommendations self c n mq)).
Proof.
  intros Hqm Hprimary.
  destruct (resolve_decompose self rng draws c n mq)
    as (drawn & remaining & Hres & Hperm & _).
  assert (forall x, x ∈ drawn ->
            x ∈ backfill_pool self c mq (get_recommendations self c n mq)) as Hsub
    by (intros x Hx; rewrite <- Hperm; apply elem_of_app; by left).
  exists drawn. split_and!; [done| |done].
  assert (NoDup (backfill_pool self c mq (get_recommendations self c n mq))) as Hpool.
  { unfold backfill_pool, available_courses. apply NoDup_filter.
    by apply high_quality_courses_NoDup. }
  rewrite <- Hperm in Hpool. apply NoDup_app in Hpool as (Hdrawn & _ & _).
  apply NoDup_app. split_and!; [done| |done].
  intros x Hx Hd. apply Hsub, elem_of_backfill_pool in Hd as (_ & _ & Hnot). done.
Qed.

(** When the pair counts are those of a dict with canonical keys (no key
    twice, smaller id first) and the quality table has one row per course,
    the course ids the resolver returns are pairwise distinct. *)
Theorem resolve_no_repetition (pcs : list pair_item) (qm : quality_table)
    (ac : list Z) (t : Z) (rng : nat -> nat) (draws : nat) (c n : Z) (mq : Q) :
  NoDup pcs.*1 ->
  (forall a b k, ((a, b), k) ∈ pcs -> a < b) ->
  NoDup qm.*1 ->
  exists l k,
    (resolve (init pcs qm ac t) rng draws c n mq).1 = (Some <$> l) ++ replicate k None /\
    NoDup l.
Proof.
  intros Hkeys Hlt Hqm.
  pose proof (primary_NoDup pcs qm ac t c n mq Hkeys Hlt) as Hprimary.
  destruct (resolve_NoDup_of_primary (init pcs qm ac t) rng draws c n mq Hqm Hprimary)
    as (drawn & Hres & Hnd & _).
  exists (get_recommendations (init pcs qm ac t) c n mq ++ drawn),
    (Z.to_nat (n - Z.of_nat (length (get_recommendations (init pcs qm ac t) c n mq ++ drawn)))).
  split; [exact Hres|exact Hnd].
Qed.

Lemma resolve_no_repetition_witness :
  exists l k,
    (resolve (init [((101, 102), 1); ((101, 103), 1)] Scenario.quality Scenario.courses 0)
       (fun _ => 0%nat) 0 101 3 0).1 = (Some <$> l) ++ replicate k None /\
    NoDup l.
Proof.
  apply (resolve_no_repetition [((101, 102), 1); ((101, 103), 1)]
           Scenario.quality Scenario.courses 0 (fun _ => 0%nat) 0 101 3 0).
  - apply (bool_decide_unpack _). vm_compute. exact I.
  - intros a b k Hin.
    repeat (apply elem_of_cons in Hin as [[= -> -> ->]|Hin]; [lia|]).
    by apply elem_of_nil in Hin.
  - apply (bool_decide_unpack _). vm_compute. exact I.
Defined.

(** ** Which courses the index holds, and with which weights *)

(** A course has an entry in the built index exactly when it occurs, as
    first or second component, in a pair whose count is above the
    threshold; an entry is never an empty list. *)
Theorem index_domain (pcs : list pair_item) (qm : quality_table)
    (ac : list Z) (t c : Z) :
  (is_Some (recommendation_index (init pcs qm ac t) !! c) <->
   exists c' k, t < k /\ (((c, c'), k) ∈ pcs \/ ((c', c), k) ∈ pcs)) /\
  (forall edges,
     recommendation_index (init pcs qm ac t) !! c = Some edges -> edges <> []).
Proof.
  unfold init. cbn [recommendation_index]. split.
  - rewrite is_Some_build_index. split.
    + intros [e He]. apply elem_of_inserted_edges in He as [[[a b] k] [He Hin]].
      apply elem_of_frequent_pairs in Hin as [Hlt Hin]. simpl in Hlt.
      apply elem_of_edges_of_pair in He as [[-> _]|[-> _]].
      * exists b, k. split; [done|by left].
      * exists a, k. split; [done|by right].
    + intros (c' & k & Hlt & [Hin|Hin]).
      * exists (c', pair_weight qm ((c, c'), k)).
        apply elem_of_inserted_edges. exists ((c, c'), k). split.
        -- apply elem_of_edges_of_pair. by left.
        -- by apply elem_of_frequent_pairs.
      * exists (c', pair_weight qm ((c', c), k)).
        apply elem_of_inserted_edges. exists ((c', c), k). split.
        -- apply elem_of_edges_of_pair. by right.
        -- by apply elem_of_frequent_pairs.
  - intros edges Hlook Hnil. subst edges.
    rewrite build_index_lookup, unsorted_index_lookup in Hlook.
    destruct (inserted_edges qm c (frequent_pairs pcs t)) as [|e es]; [done|].
    apply fmap_Some in Hlook as (l & [= <-] & Hs).
    pose proof (Permutation_length (sort_edges_perm (e :: es))) as Hlen.
    rewrite <- Hs in Hlen. discriminate Hlen.
Qed.

(** Raising the threshold never adds an edge: with t1 <= t2, every edge of
    the index built with threshold t2 is an edge of the index built with
    threshold t1, with the same weight. *)
Theorem index_threshold_monotone (pcs : list pair_item) (qm : quality_table)
    (ac : list Z) (t1 t2 c : Z) (e : edge) :
  t1 <= t2 ->
  e ∈ edges_at (recommendation_index (init pcs qm ac t2)) c ->
  e ∈ edges_at (recommendation_index (init pcs qm ac t1)) c.
Proof.
  intros Hle. unfold init. cbn [recommendation_index].
  rewrite !elem_of_edges_at_build_index. intros [item [He Hin]].
  exists item. split; [done|].
  apply elem_of_frequent_pairs in Hin as [Hlt Hin].
  apply elem_of_frequent_pairs. split; [lia|done].
Qed.

Lemma index_threshold_monotone_witness :
  (102, (14000 # 20000)%Q)
    ∈ edges_at (recommendation_index
        (init (analyze_joint_purchases Scenario.purchases) Scenario.quality
           Scenario.courses (-1))) 101.
Proof.
  apply (index_threshold_monotone (analyze_joint_purchases Scenario.purchases)
           Scenario.quality Scenario.courses (-1) 0 101 (102, (14000 # 20000)%Q)).
  - lia.
  - vm_compute. by left.
Defined.

Lemma get_course_score_range (qm : quality_table) (c : Z) :
  (forall r, r ∈ qm -> (0 <= r.2)%Q /\ (r.2 <= 100)%Q) ->
  (0 <= _get_course_score qm c)%Q /\ (_get_course_score qm c <= 1)%Q.
Proof.
  intros Hrange.
  destruct (get_course_score_cases qm c) as [[_ ->]|[q [Hin ->]]].
  - split; by vm_compute.
  - destruct (Hrange _ Hin) as [H0 H100]. simpl in *. split.
    + apply Qle_shift_div_l; [reflexivity|]. by rewrite Qmult_0_l.
    + apply Qle_shift_div_r; [reflexivity|]. by rewrite Qmult_1_l.
Qed.

(** With quality scores between 0 and 100 and a non-negative threshold,
    every edge of the built index comes from a pair above the threshold
    whose count bounds its weight: 0 <= weight <= count. *)
Theorem index_weight_bounds (pcs : list pair_item) (qm : quality_table)
    (ac : list Z) (t c c' : Z) (w : Q) :
  0 <= t ->
  (forall r, r ∈ qm -> (0 <= r.2)%Q /\ (r.2 <= 100)%Q) ->
  (c', w) ∈ edges_at (recommendation_index (init pcs qm ac t)) c ->
  exists c1 c2 k,
    ((c1, c2), k) ∈ pcs /\ t < k /\
    ((c1 = c /\ c2 = c') \/ (c2 = c /\ c1 = c')) /\
    (0 <= w)%Q /\ (w <= inject_Z k)%Q.
Proof.
  intros Ht Hrange Hin.
  apply index_edge_origin in Hin as (c1 & c2 & k & Hin & Hlt & Hends & ->).
  exists c1, c2, k. split_and!; [done|done|done| |].
  - unfold pair_weight.
    destruct (get_course_score_range qm c1 Hrange) as [H1 _].
    destruct (get_course_score_range qm c2 Hrange) as [H2 _].
    apply Qmult_le_0_compat.
    + change 0%Q with (inject_Z 0). rewrite <- Zle_Qle. lia.
    + apply Qle_shift_div_l; [reflexivity|]. rewrite Qmult_0_l.
      replace 0%Q with (0 + 0)%Q by reflexivity. by apply Qplus_le_compat.
  - unfold pair_weight.
    destruct (get_course_score_range qm c1 Hrange) as [_ H1].
    destruct (get_course_score_range qm c2 Hrange) as [_ H2].
    rewrite <- (Qmult_1_r (inject_Z k)) at 2.
    rewrite !(Qmult_comm (inject_Z k)).
    apply Qmult_le_compat_r.
    + apply Qle_shift_div_r; [reflexivity|].
      replace (1 * 2)%Q with (1 + 1)%Q by reflexivity. by apply Qplus_le_compat.
    + change 0%Q with (inject_Z 0). rewrite <- Zle_Qle. lia.
Qed.

Lemma index_weight_bounds_witness :
  exists c1 c2 k,
    ((c1, c2), k) ∈ analyze_joint_purchases Scenario.purchases /\ 0 < k /\
    ((c1 = 101 /\ c2 = 102) \/ (c2 = 101 /\ c1 = 102)) /\
    (0 <= 14000 # 20000)%Q /\ (14000 # 20000 <= inject_Z k)%Q.
Proof.
  apply (index_weight_bounds (analyze_joint_purchases Scenario.purchases)
           Scenario.quality Scenario.courses 0 101 102 (14000 # 20000)%Q).
  - lia.
  - apply Forall_forall. repeat constructor; vm_compute; discriminate.
  - vm_compute. by left.
Defined.

(** ** Further properties of the pair aggregator *)

Lemma users_with_both_pos (purchase_data : list purchase_row) (a b : Z) :
  (1 <= users_with_both purchase_data a b)%nat ->
  exists u, (u, a) ∈ purchase_data /\ (u, b) ∈ purchase_data.
Proof.
  unfold users_with_both.
  destruct (filter _ (remove_dups purchase_data.*1)) as [|u us] eqn:Hf;
    simpl; [lia|].
  intros _. exists u.
  assert (u ∈ u :: us) as Hu by (by left).
  rewrite <- Hf in Hu. by apply list_elem_of_filter in Hu as [? _].
Qed.

(** On a purchase log without a repeated row the aggregate is exactly the
    co-purchase relation: (a, b) is a key with count k if and only if
    a < b, at least one user bought both courses, and k is the number of
    distinct users who bought both. *)
Theorem aggregate_counts_users (purchase_data : list purchase_row) (a b k : Z) :
  NoDup purchase_data ->
  ((a, b), k) ∈ analyze_joint_purchases purchase_data <->
  a < b /\ 1 <= k /\ k = Z.of_nat (users_with_both purchase_data a b).
Proof.
  intros Hnd. split.
  - intros Hin.
    destruct (analyze_joint_purchases_distinct_rows purchase_data a b k Hnd Hin)
      as [Hlt Hk].
    split_and!; [done| |done].
    unfold analyze_joint_purchases in Hin.
    apply elem_of_Counter in Hin as [Hmem ->].
    destruct (count_in (a, b) (all_pairs purchase_data)) eqn:Hc; [|lia].
    apply count_in_zero in Hc. done.
  - intros (Hlt & Hpos & ->).
    destruct (users_with_both_pos purchase_data a b) as (u & Ha & Hb); [lia|].
    by apply (analyze_joint_purchases_complete purchase_data u).
Qed.

Lemma aggregate_counts_users_witness :
  ((101, 102), 1) ∈ analyze_joint_purchases Scenario.purchases <->
  101 < 102 /\ 1 <= 1 /\ 1 = Z.of_nat (users_with_both Scenario.purchases 101 102).
Proof.
  apply (aggregate_counts_users Scenario.purchases 101 102 1).
  apply (bool_decide_unpack _). vm_compute. exact I.
Defined.

Lemma total_count_counter_incr (k : Z * Z) (c : list pair_item) :
  total_count (counter_incr k c) = total_count c + 1.
Proof.
  induction c as [|[k' m] c IH]; simpl; [done|].
  destruct (decide (k' = k)); simpl; [lia|]. rewrite IH. lia.
Qed.

Lemma total_count_Counter (l : list (Z * Z)) :
  total_count (Counter l) = Z.of_nat (length l).
Proof.
  induction l as [|k l IH] using rev_ind; [done|].
  rewrite Counter_snoc, total_count_counter_incr, IH, length_app. simpl. lia.
Qed.

Lemma combinations2_length (l : list Z) :
  Z.of_nat (length (combinations2 l)) * 2 =
  Z.of_nat (length l) * (Z.of_nat (length l) - 1).
Proof.
  induction l as [|x l IH]; [done|].
  cbn [combinations2]. rewrite length_app, length_fmap. cbn [length]. lia.
Qed.

Lemma pairs_of_user_length (courses : list Z) :
  Z.of_nat (length (pairs_of_user courses)) =
  Z.of_nat (length courses) * (Z.of_nat (length courses) - 1) / 2.
Proof.
  unfold pairs_of_user. case_bool_decide as Hlen.
  - pose proof (combinations2_length (merge_sort Z.le courses)) as H.
    rewrite (Permutation_length (merge_sort_Permutation Z.le courses)) in H.
    rewrite <- H. by rewrite Z.div_mul.
  - destruct courses as [|x [|y l]]; simpl in *; [done|done|lia].
Qed.

(** The counts of the aggregate add up to the number of pairs enumerated:
    a user with k purchase rows contributes k (k - 1) / 2 of them. *)
Theorem aggregate_total (purchase_data : list purchase_row) :
  total_count (analyze_joint_purchases purchase_data) =
    Z.of_nat (length (all_pairs purchase_data)) /\
  total_count (analyze_joint_purchases purchase_data) =
    pairs_enumerated purchase_data.
Proof.
  unfold analyze_joint_purchases. rewrite total_count_Counter. split; [done|].
  rewrite all_pairs_bind. unfold pairs_enumerated.
  induction (group_keys purchase_data) as [|u us IH]; [done|].
  rewrite bind_cons, length_app, Nat2Z.inj_add, IH. cbn [foldr].
  by rewrite pairs_of_user_length.
Qed.

Lemma merge_sort_perm_eq (l1 l2 : list Z) :
  l1 ≡ₚ l2 -> merge_sort Z.le l1 = merge_sort Z.le l2.
Proof.
  intros Hperm. apply (Sorted_unique Z.le).
  - apply Sorted_merge_sort; apply _.
  - apply Sorted_merge_sort; apply _.
  - by rewrite !merge_sort_Permutation.
Qed.

(** The aggregate does not depend on the order of the purchase rows: two
    logs with the same rows in any order give the same counter, keys in
    the same order. *)
Theorem aggregate_order_independent (log1 log2 : list purchase_row) :
  log1 ≡ₚ log2 ->
  analyze_joint_purchases log1 = analyze_joint_purchases log2.
Proof.
  intros Hperm. unfold analyze_joint_purchases. f_equal.
  rewrite !all_pairs_bind.
  assert (group_keys log1 = group_keys log2) as ->.
  { unfold group_keys. apply merge_sort_perm_eq.
    apply NoDup_Permutation; [apply NoDup_remove_dups..|].
    intros u. rewrite !elem_of_remove_dups. by rewrite Hperm. }
  induction (group_keys log2) as [|u us IH]; [done|].
  rewrite !bind_cons, IH. f_equal.
  assert (courses_of log1 u ≡ₚ courses_of log2 u) as Hc
    by (unfold courses_of; by rewrite Hperm).
  unfold pairs_of_user.
  rewrite (Permutation_length Hc), (merge_sort_perm_eq _ _ Hc). done.
Qed.

Lemma aggregate_order_independent_witness :
  analyze_joint_purchases [(1, 101); (2, 103); (1, 102); (2, 101)] =
  analyze_joint_purchases [(2, 103); (1, 101); (2, 101); (1, 102)].
Proof.
  apply (aggregate_order_independent
           [(1, 101); (2, 103); (1, 102); (2, 101)]
           [(2, 103); (1, 101); (2, 101); (1, 102)]).
  apply NoDup_Permutation.
  - apply (bool_decide_unpack _). vm_compute. exact I.
  - apply (bool_decide_unpack _). vm_compute. exact I.
  - intros x. split; intros Hx;
      repeat (apply elem_of_cons in Hx as [->|Hx];
              [apply (bool_decide_unpack _); vm_compute; exact I|]);
      by apply elem_of_nil in Hx.
Defined.

(** ** The frequency table and the top pairs *)

#[local] Instance more_frequent_trans : Transitive more_frequent.
Proof. intros a b c. unfold more_frequent. lia. Qed.

Lemma insert_item_perm (i : pair_item) (l : list pair_item) : insert_item i l ≡ₚ i :: l.
Proof.
  induction l as [|i' l IH]; simpl; [done|].
  case_bool_decide; [done|]. rewrite IH. apply Permutation_swap.
Qed.

Lemma most_common_all_perm (c : list pair_item) : most_common_all c ≡ₚ c.
Proof.
  induction c as [|i c IH]; simpl; [done|].
  by rewrite insert_item_perm, IH.
Qed.

Lemma insert_item_sorted (i : pair_item) (l : list pair_item) :
  Sorted more_frequent l -> Sorted more_frequent (insert_item i l).
Proof.
  induction l as [|i' l IH]; simpl; intros Hs.
  - by repeat constructor.
  - case_bool_decide as Hcmp.
    + constructor; [done|]. by constructor.
    + inversion Hs as [|? ? Hl Hhd]; subst. constructor; [by apply IH|].
      destruct l as [|i'' l]; simpl.
      * constructor. unfold more_frequent. lia.
      * case_bool_decide; constructor; [unfold more_frequent; lia|].
        by inversion Hhd.
Qed.

Lemma most_common_all_sorted (c : list pair_item) :
  StronglySorted more_frequent (most_common_all c).
Proof.
  apply Sorted_StronglySorted; [apply _|].
  induction c as [|i c IH]; simpl; [constructor|].
  by apply insert_item_sorted.
Qed.

Lemma insert_item_stable (k : Z) (i : pair_item) (l : list pair_item) :
  filter (fun x : pair_item => x.2 = k) (insert_item i l) =
  filter (fun x : pair_item => x.2 = k) (i :: l).
Proof.
  induction l as [|i' l IH]; simpl; [done|].
  case_bool_decide as Hcmp; [done|].
  rewrite (filter_cons _ i'), IH, !filter_cons.
  destruct (decide (i'.2 = k)), (decide (i.2 = k)); try done. lia.
Qed.

Lemma most_common_all_stable (k : Z) (c : list pair_item) :
  filter (fun x : pair_item => x.2 = k) (most_common_all c) =
  filter (fun x : pair_item => x.2 = k) c.
Proof.
  induction c as [|i c IH]; simpl; [done|].
  by rewrite insert_item_stable, !filter_cons, IH.
Qed.

Lemma row_item_pair_freq_df (purchase_data : list purchase_row) :
  row_item <$> pair_freq_df purchase_data =
  most_common_all (analyze_joint_purchases purchase_data).
Proof.
  unfold pair_freq_df, most_common. rewrite <- list_fmap_compose.
  rewrite <- (list_fmap_id (most_common_all _)) at 2.
  apply list_fmap_ext. by intros _ [[a b] k] _.
Qed.

(** The frequency table returned with the counter lists every counted pair
    once with its count, by decreasing frequency; pairs of equal frequency
    stay in the order of the counter; the columns course1 and course2 are
    the two components of the pair. *)
Theorem pair_freq_df_sorted (purchase_data : list purchase_row) :
  row_item <$> pair_freq_df purchase_data ≡ₚ analyze_joint_purchases purchase_data /\
  StronglySorted more_frequent (row_item <$> pair_freq_df purchase_data) /\
  (forall k,
     filter (fun x : pair_item => x.2 = k) (row_item <$> pair_freq_df purchase_data) =
     filter (fun x : pair_item => x.2 = k) (analyze_joint_purchases purchase_data)) /\
  (forall r, r ∈ pair_freq_df purchase_data ->
     PairFreq.pair r = (PairFreq.course1 r, PairFreq.course2 r)).
Proof.
  rewrite row_item_pair_freq_df. split_and!.
  - apply most_common_all_perm.
  - apply most_common_all_sorted.
  - intros k. apply most_common_all_stable.
  - intros r [[[a b] k] [-> _]]%list_elem_of_fmap. done.
Qed.

Lemma StronglySorted_take_drop (l : list pair_item) (m : nat) (p r : pair_item) :
  StronglySorted more_frequent l ->
  p ∈ take m l -> r ∈ drop m l -> r.2 <= p.2.
Proof.
  intros Hs Hp Hr. rewrite <- (take_drop m l) in Hs.
  by apply (StronglySorted_app_1_elem_of more_frequent _ _ p r Hs).
Qed.

(** [print_top_pairs] prints the n most frequent pairs: min(n, number of
    pairs) lines (none for n <= 0), ranked 1, 2, ..., each showing a pair
    of the counter with its count, by decreasing count; no pair left out
    has a larger count than a pair shown. *)
Theorem print_top_pairs_top (counter : list pair_item) (n : Z) :
  exists shown rest,
    shown ++ rest ≡ₚ counter /\
    print_top_pairs counter n =
      imap (fun i (item : pair_item) => (Z.of_nat i + 1, item.1.1, item.1.2, item.2)) shown /\
    length (print_top_pairs counter n) = (Z.to_nat n `min` length counter)%nat /\
    StronglySorted more_frequent shown /\
    (forall p r, p ∈ shown -> r ∈ rest -> r.2 <= p.2).
Proof.
  exists (take (Z.to_nat n) (most_common_all counter)),
    (drop (Z.to_nat n) (most_common_all counter)).
  split_and!.
  - by rewrite take_drop, most_common_all_perm.
  - done.
  - unfold print_top_pairs, most_common.
    rewrite length_imap, length_take.
    by rewrite (Permutation_length (most_common_all_perm counter)).
  - pose proof (most_common_all_sorted counter) as Hs.
    rewrite <- (take_drop (Z.to_nat n) (most_common_all counter)) in Hs.
    by apply StronglySorted_app_1_l in Hs.
  - intros p r Hp Hr.
    by apply (StronglySorted_take_drop _ (Z.to_nat n) p r (most_common_all_sorted counter)).
Qed.

(** ** The batch table *)

Lemma recommendation_row_two (self : CourseRecommender) (c : Z)
    (r0 r1 : option Z) (rest : list (option Z)) :
  recommendation_row self c (r0 :: r1 :: rest) = Returns (row_of self c r0 r1).
Proof. reflexivity. Qed.

Lemma recommendation_row_short (self : CourseRecommender) (c : Z)
    (recs : list (option Z)) :
  (length recs < 2)%nat -> recommendation_row self c recs = Raises IndexError.
Proof.
  destruct recs as [|r0 [|r1 rest]]; simpl; intros Hlen; [done|done|lia].
Qed.

Lemma resolve_two_slots (self : CourseRecommender) (rng : nat -> nat) (draws : nat)
    (c n : Z) (mq : Q) :
  2 <= n ->
  exists r0 r1 rest, (resolve self rng draws c n mq).1 = r0 :: r1 :: rest.
Proof.
  intros Hn.
  destruct (resolve_padded self rng draws c n mq) as (l & Hres & Hl); [lia|].
  pose proof (pad_none_length n l Hl) as Hlen. rewrite <- Hres in Hlen.
  destruct ((resolve self rng draws c n mq).1) as [|r0 [|r1 rest]];
    simpl in Hlen; [lia|lia|]. by exists r0, r1, rest.
Qed.

Lemma resolve_short (self : CourseRecommender) (rng : nat -> nat) (draws : nat)
    (c n : Z) (mq : Q) :
  n < 2 -> (length (resolve self rng draws c n mq).1 < 2)%nat.
Proof.
  intros Hn. destruct (decide (1 <= n)) as [H1|H0].
  - destruct (resolve_padded self rng draws c n mq) as (l & Hres & Hl); [done|].
    pose proof (pad_none_length n l Hl) as Hlen. rewrite <- Hres in Hlen. lia.
  - assert (length (get_recommendations self c n mq) <= 1)%nat as Hprim.
    { unfold get_recommendations.
      destruct (recommendation_index self !! c) as [edges|]; simpl; [|lia].
      rewrite walk_edges_nonpositive by lia.
      destruct edges as [|[cand w] rest]; simpl; [lia|].
      destruct (Qle_bool mq (_get_course_score (quality_metrics self) cand * 100));
        simpl; lia. }
    unfold resolve, backfill. rewrite bool_decide_eq_false_2 by lia.
    cbn [fst bf_recs]. unfold pad_none.
    rewrite length_app, length_fmap, length_replicate. lia.
Qed.

Lemma all_rows_returns (self : CourseRecommender) (rng : nat -> nat) (n : Z) (mq : Q)
    (courses : list Z) (draws : nat) :
  2 <= n ->
  exists rows,
    all_rows self rng draws courses n mq = Returns rows /\
    Forall2 (is_row_of self rng n mq) courses rows.
Proof.
  intros Hn. revert draws. induction courses as [|c courses IH]; intros draws.
  - exists []. split; [done|constructor].
  - cbn [all_rows].
    destruct (resolve_two_slots self rng draws c n mq Hn) as (r0 & r1 & rest & Hres).
    destruct (resolve self rng draws c n mq) as [recs draws'] eqn:Hr.
    cbn [fst] in Hres. subst recs.
    destruct (IH draws') as (rows & Hrows & Hall).
    exists (row_of self c r0 r1 :: rows). split.
    + rewrite recommendation_row_two, Hrows. reflexivity.
    + constructor; [|done]. exists draws, r0, r1, rest. by rewrite Hr.
Qed.

Lemma is_row_of_course_id (self : CourseRecommender) (rng : nat -> nat) (n : Z)
    (mq : Q) (courses : list Z) (rows : list RecommendationRecord) :
  Forall2 (is_row_of self rng n mq) courses rows -> course_id <$> rows = courses.
Proof.
  induction 1 as [|c row courses rows (d & r0 & r1 & rest & _ & ->) _ IH];
    [done|]. rewrite fmap_cons, IH. done.
Qed.

Lemma get_all_recommendations_table (self : CourseRecommender) (rng : nat -> nat)
    (n : Z) (mq : Q) :
  2 <= n ->
  exists rows,
    get_all_recommendations self rng n mq = Returns rows /\
    course_id <$> rows = merge_sort Z.le (elements (all_courses self)) /\
    (forall row, row ∈ rows -> is_row_of self rng n mq (course_id row) row).
Proof.
  intros Hn. unfold get_all_recommendations.
  destruct (all_rows_returns self rng n mq
              (merge_sort Z.le (elements (all_courses self))) 0 Hn)
    as (rows & Hrows & Hall).
  exists rows. pose proof (is_row_of_course_id _ _ _ _ _ _ Hall) as Hids.
  split_and!; [done|done|].
  intros row Hrow. rewrite Forall2_lookup in Hall.
  apply list_elem_of_lookup in Hrow as [i Hi].
  specialize (Hall i). rewrite Hi in Hall.
  inversion Hall as [c row' Hrel|]; subst.
  destruct Hrel as (d & r0 & r1 & rest & Hres & ->). cbn [course_id row_of].
  by exists d, r0, r1, rest.
Qed.

(** For n >= 2, [get_all_recommendations] raises nothing and returns one
    row per course of the universe, by ascending course id; the row of a
    course holds the first two slots of the resolver's result for it. *)
Theorem get_all_recommendations_rows (self : CourseRecommender) (rng : nat -> nat)
    (n : Z) (mq : Q) :
  2 <= n ->
  exists rows,
    get_all_recommendations self rng n mq = Returns rows /\
    length rows = size (all_courses self) /\
    StronglySorted Z.le (course_id <$> rows) /\
    NoDup (course_id <$> rows) /\
    (forall c, c ∈ course_id <$> rows <-> c ∈ all_courses self) /\
    (forall row, row ∈ rows -> is_row_of self rng n mq (course_id row) row).
Proof.
  intros Hn.
  destruct (get_all_recommendations_table self rng n mq Hn)
    as (rows & Hrows & Hids & Hall).
  exists rows. split_and!.
  - done.
  - rewrite <- (length_fmap course_id), Hids.
    by rewrite (Permutation_length (merge_sort_Permutation _ _)).
  - rewrite Hids. apply merge_sort_strongly_sorted.
  - rewrite Hids, merge_sort_Permutation. apply NoDup_elements.
  - intros c. rewrite Hids, merge_sort_Permutation. apply elem_of_elements.
  - done.
Qed.

Lemma get_all_recommendations_rows_witness :
  exists rows,
    get_all_recommendations Scenario.recommender (fun _ => 0%nat) 2 (50 # 1) = Returns rows /\
    length rows = size (all_courses Scenario.recommender) /\
    StronglySorted Z.le (course_id <$> rows) /\
    NoDup (course_id <$> rows) /\
    (forall c, c ∈ course_id <$> rows <-> c ∈ all_courses Scenario.recommender) /\
    (forall row, row ∈ rows ->
       is_row_of Scenario.recommender (fun _ => 0%nat) 2 (50 # 1) (course_id row) row).
Proof.
  apply (get_all_recommendations_rows Scenario.recommender (fun _ => 0%nat) 2 (50 # 1)). lia.
Defined.

(** For n < 2 a row cannot be built: as soon as the universe has a course,
    [get_all_recommendations] raises IndexError (the row reads the slots 0
    and 1 of a result that has fewer than two). *)
Theorem get_all_recommendations_needs_two_slots (self : CourseRecommender)
    (rng : nat -> nat) (n : Z) (mq : Q) :
  n < 2 ->
  all_courses self <> ∅ ->
  get_all_recommendations self rng n mq = Raises IndexError.
Proof.
  intros Hn Hne. unfold get_all_recommendations.
  destruct (merge_sort Z.le (elements (all_courses self))) as [|c courses] eqn:Hs.
  - exfalso. apply Hne. apply leibniz_equiv, elements_empty_inv, Permutation_nil_r.
    by rewrite <- (merge_sort_Permutation Z.le), Hs.
  - cbn [all_rows].
    pose proof (resolve_short self rng 0 c n mq Hn) as Hlen.
    destruct (resolve self rng 0 c n mq) as [recs draws']. cbn [fst] in Hlen.
    by rewrite recommendation_row_short.
Qed.

Lemma get_all_recommendations_needs_two_slots_witness :
  get_all_recommendations Scenario.recommender (fun _ => 0%nat) 1 (50 # 1)
    = Raises IndexError.
Proof.
  apply (get_all_recommendations_needs_two_slots Scenario.recommender (fun _ => 0%nat) 1 (50 # 1)).
  - lia.
  - vm_compute. discriminate.
Defined.

(** ** Looking a course up in the table *)

Lemma filter_course_id_absent (rows : list RecommendationRecord) (c : Z) :
  c ∉ course_id <$> rows ->
  filter (fun r : RecommendationRecord => course_id r = c) rows = [].
Proof.
  induction rows as [|r rows IH]; [done|].
  rewrite fmap_cons, not_elem_of_cons. intros [Hne Hnot].
  rewrite filter_cons_False by done. by apply IH.
Qed.

Lemma filter_course_id_present (rows : list RecommendationRecord)
    (row : RecommendationRecord) :
  NoDup (course_id <$> rows) -> row ∈ rows ->
  filter (fun r : RecommendationRecord => course_id r = course_id row) rows = [row].
Proof.
  induction rows as [|r rows IH]; intros Hnd Hin; [by apply elem_of_nil in Hin|].
  rewrite fmap_cons in Hnd. apply NoDup_cons in Hnd as [Hr Hnd].
  apply elem_of_cons in Hin as [->|Hin].
  - rewrite filter_cons_True by done. by rewrite filter_course_id_absent.
  - rewrite filter_cons_False; [by apply IH|].
    intros Heq. apply Hr. rewrite Heq. by apply list_elem_of_fmap_2.
Qed.

(** Reading the table back.  In the table computed for n >= 2, the lookup
    of a course of the universe finds its row: it returns that course id
    and, in order, the course ids among the first two slots of the
    resolver's result for the course, each with its recorded quality
    score (none when the course has no quality row).  The lookup of any
    other course returns the error value when the universe is not empty;
    on the table of an empty universe it raises KeyError. *)
Theorem lookup_in_table (self : CourseRecommender) (rng : nat -> nat)
    (n : Z) (mq : Q) (rows : list RecommendationRecord) (c : Z) :
  2 <= n ->
  get_all_recommendations self rng n mq = Returns rows ->
  (c ∈ all_courses self ->
   exists info draws,
     get_recommendations_for_course rows c = inr (Found info) /\
     CourseInfo.course_id info = c /\
     (CourseInfo.recommendations info).*1 =
       omap id (take 2 (resolve self rng draws c n mq).1) /\
     (forall x q, (x, q) ∈ CourseInfo.recommendations info ->
        q = loc_quality_score (quality_metrics self) x)) /\
  (c ∉ all_courses self ->
   get_recommendations_for_course rows c =
     if decide (all_courses self = ∅) then inl KeyError else inr (NotFound c)).
Proof.
  intros Hn Hrows.
  destruct (get_all_recommendations_table self rng n mq Hn)
    as (rows' & Hrows' & Hids & Hall).
  rewrite Hrows in Hrows'. injection Hrows' as <-.
  assert (NoDup (course_id <$> rows)) as Hnd
    by (rewrite Hids, merge_sort_Permutation; apply NoDup_elements).
  assert (forall x, x ∈ course_id <$> rows <-> x ∈ all_courses self) as Hdom
    by (intros x; rewrite Hids, merge_sort_Permutation; apply elem_of_elements).
  split.
  - intros Hc. apply Hdom in Hc.
    apply list_elem_of_fmap in Hc as (row & -> & Hrow).
    destruct (Hall row Hrow) as (d & r0 & r1 & rest & Hres & Hrow_eq).
    unfold get_recommendations_for_course.
    rewrite (filter_course_id_present rows row Hnd Hrow).
    destruct rows as [|row0 rows0]; [by apply elem_of_nil in Hrow|].
    eexists _, d. split; [reflexivity|]. cbn [CourseInfo.course_id CourseInfo.recommendations].
    rewrite Hres.
    assert (recomm_one row = r0) as -> by (by rewrite Hrow_eq).
    assert (recomm_two row = r1) as -> by (by rewrite Hrow_eq).
    assert (recomm_one_quality row = rec_quality_of (quality_metrics self) r0) as ->
      by (by rewrite Hrow_eq).
    assert (recomm_two_quality row = rec_quality_of (quality_metrics self) r1) as ->
      by (by rewrite Hrow_eq).
    split_and!; [done| |].
    + destruct r0, r1; reflexivity.
    + intros x q Hin. destruct r0 as [x0|], r1 as [x1|]; simpl in Hin;
        repeat (apply elem_of_cons in Hin as [[= -> ->]|Hin]; [done|]);
        by apply elem_of_nil in Hin.
  - intros Hc. unfold get_recommendations_for_course.
    destruct rows as [|row0 rows0].
    + rewrite decide_True; [done|].
      apply leibniz_equiv, elements_empty_inv, Permutation_nil_r.
      by rewrite <- (merge_sort_Permutation Z.le), <- Hids.
    + rewrite decide_False.
      * rewrite filter_course_id_absent; [done|]. by rewrite Hdom.
      * intros Hempty.
        assert (course_id row0 ∈ all_courses self) as Hin
          by (apply Hdom; rewrite fmap_cons; by left).
        rewrite Hempty in Hin. by apply not_elem_of_empty in Hin.
Qed.

Lemma lookup_in_table_witness :
  (101 ∈ all_courses Scenario.recommender ->
   exists info draws,
     get_recommendations_for_course
       [row_of Scenario.recommender 101 (Some 102) None;
        row_of Scenario.recommender 102 (Some 101) None;
        row_of Scenario.recommender 103 (Some 101) (Some 102)] 101 = inr (Found info) /\
     CourseInfo.course_id info = 101 /\
     (CourseInfo.recommendations info).*1 =
       omap id (take 2 (resolve Scenario.recommender (fun _ => 0%nat) draws 101 2 (50 # 1)).1) /\
     (forall x q, (x, q) ∈ CourseInfo.recommendations info ->
        q = loc_quality_score (quality_metrics Scenario.recommender) x)) /\
  (101 ∉ all_courses Scenario.recommender ->
   get_recommendations_for_course
     [row_of Scenario.recommender 101 (Some 102) None;
      row_of Scenario.recommender 102 (Some 101) None;
      row_of Scenario.recommender 103 (Some 101) (Some 102)] 101 =
     if decide (all_courses Scenario.recommender = ∅)
     then inl KeyError else inr (NotFound 101)).
Proof.
  apply (lookup_in_table Scenario.recommender (fun _ => 0%nat) 2 (50 # 1)).
  - lia.
  - vm_compute. reflexivity.
Defined.

(** ** Statistics of the table *)

Lemma count_courses_cons (r : RecommendationRecord) (rows : list RecommendationRecord)
    (count : nat) :
  count_courses (r :: rows) count =
    ((if decide (length (filter (fun slot : option Z => is_Some slot)
                           [recomm_one r; recomm_two r]) = count)
      then 1 else 0) + count_courses rows count)%nat.
Proof.
  unfold count_courses, rec_counts. rewrite fmap_cons, filter_cons.
  by destruct (decide _).
Qed.

Lemma count_courses_total (rows : list RecommendationRecord) :
  (count_courses rows 0 + count_courses rows 1 + count_courses rows 2)%nat
  = length rows.
Proof.
  induction rows as [|r rows IH]; [done|].
  rewrite !count_courses_cons. cbn [length]. rewrite <- IH.
  destruct (recomm_one r), (recomm_two r); simpl; lia.
Qed.

Lemma is_row_of_sentinels (self : CourseRecommender) (rng : nat -> nat) (n : Z)
    (mq : Q) (c : Z) (row : RecommendationRecord) :
  1 <= n ->
  is_row_of self rng n mq c row ->
  has_recommendations row = bool_decide (is_Some (recomm_one row)) /\
  (recomm_one row = None -> recomm_two row = None).
Proof.
  intros Hn (d & r0 & r1 & rest & Hres & ->). cbn [has_recommendations recomm_one recomm_two row_of].
  split; [done|]. intros ->.
  destruct (resolve_padded self rng d c n mq Hn) as (l & Hshape & _).
  rewrite Hres in Hshape. unfold pad_none in Hshape.
  destruct l as [|x l]; [|done]. simpl in Hshape.
  destruct (Z.to_nat (n - Z.of_nat 0)) as [|[|k]]; simpl in Hshape; by simplify_eq.
Qed.

Lemma courses_with_recs_count (rows : list RecommendationRecord) :
  Forall (fun row => has_recommendations row = bool_decide (is_Some (recomm_one row)) /\
                     (recomm_one row = None -> recomm_two row = None)) rows ->
  (length (filter (fun r : RecommendationRecord => has_recommendations r) rows)
   + count_courses rows 0)%nat = length rows.
Proof.
  induction 1 as [|r rows [Hhas Hpad] _ IH]; [done|].
  rewrite count_courses_cons, filter_cons. cbn [length]. rewrite <- IH, Hhas.
  destruct (recomm_one r) as [x|] eqn:H1.
  - rewrite decide_True by (apply bool_decide_pack; by eexists).
    destruct (recomm_two r); simpl; lia.
  - rewrite (Hpad eq_refl).
    rewrite decide_False; [simpl; lia|].
    intros Hb. apply bool_decide_unpack in Hb. by destruct Hb.
Qed.

(** The statistics of a table computed for n >= 2 over a non-empty
    universe are consistent: the total is the number of courses of the
    universe; the numbers of courses with 0, 1 and 2 recommendations add
    up to the total; and the courses counted as having recommendations
    are exactly those with 1 or 2, because sentinels only follow course
    ids. *)
Theorem statistics_consistent (self : CourseRecommender) (rng : nat -> nat)
    (n : Z) (mq : Q) (rows : list RecommendationRecord) :
  2 <= n ->
  all_courses self <> ∅ ->
  get_all_recommendations self rng n mq = Returns rows ->
  exists st k0 k1 k2,
    get_recommendation_statistics rows = inr st /\
    total_courses st = size (all_courses self) /\
    courses_by_count st = [(0, k0); (1, k1); (2, k2)]%nat /\
    (k0 + k1 + k2)%nat = total_courses st /\
    courses_with_recs st = (k1 + k2)%nat.
Proof.
  intros Hn Hne Hrows.
  destruct (get_all_recommendations_table self rng n mq Hn)
    as (rows' & Hrows' & Hids & Hall).
  rewrite Hrows in Hrows'. injection Hrows' as <-.
  assert (length rows = size (all_courses self)) as Hlen.
  { rewrite <- (length_fmap course_id), Hids.
    by rewrite (Permutation_length (merge_sort_Permutation _ _)). }
  assert (Forall (fun row => has_recommendations row = bool_decide (is_Some (recomm_one row)) /\
                     (recomm_one row = None -> recomm_two row = None)) rows) as Hgood.
  { apply Forall_forall. intros row Hrow.
    apply (is_row_of_sentinels self rng n mq (course_id row)); [lia|by apply Hall]. }
  pose proof (courses_with_recs_count rows Hgood) as Hwith.
  pose proof (count_courses_total rows) as Htotal.
  destruct rows as [|row0 rows0].
  { exfalso. apply Hne, leibniz_equiv, size_empty_inv. by rewrite <- Hlen. }
  eexists _, (count_courses (row0 :: rows0) 0),
    (count_courses (row0 :: rows0) 1), (count_courses (row0 :: rows0) 2).
  split; [reflexivity|].
  cbn [total_courses courses_with_recs courses_by_count].
  split_and!; [done|done|lia|lia].
Qed.

Lemma statistics_consistent_witness :
  exists st k0 k1 k2,
    get_recommendation_statistics
      [row_of Scenario.recommender 101 (Some 102) None;
       row_of Scenario.recommender 102 (Some 101) None;
       row_of Scenario.recommender 103 (Some 101) (Some 102)] = inr st /\
    total_courses st = size (all_courses Scenario.recommender) /\
    courses_by_count st = [(0, k0); (1, k1); (2, k2)]%nat /\
    (k0 + k1 + k2)%nat = total_courses st /\
    courses_with_recs st = (k1 + k2)%nat.
Proof.
  apply (statistics_consistent Scenario.recommender (fun _ => 0%nat) 2 (50 # 1)).
  - lia.
  - vm_compute. discriminate.
  - vm_compute. reflexivity.
Defined.

(** ** Ranking and consistency of the primary phase *)

(** The answers for different n agree: for 1 <= n <= m the answer for n is
    the first n entries of the answer for m. *)
Theorem get_recommendations_prefix (self : CourseRecommender) (c n m : Z) (mq : Q) :
  1 <= n -> n <= m ->
  get_recommendations self c n mq =
    take (Z.to_nat n) (get_recommendations self c m mq).
Proof.
  intros Hn Hm. unfold get_recommendations.
  destruct (recommendation_index self !! c) as [edges|]; [|by rewrite take_nil].
  rewrite !walk_edges_take by (simpl; lia). simpl. rewrite !Nat.sub_0_r.
  rewrite take_take. f_equal. lia.
Qed.

Lemma get_recommendations_prefix_witness :
  get_recommendations Scenario.recommender 103 1 0 =
    take (Z.to_nat 1) (get_recommendations Scenario.recommender 103 2 0).
Proof.
  apply (get_recommendations_prefix Scenario.recommender 103 1 2 0); lia.
Defined.

Lemma StronglySorted_sublist {A : Type} (R : relation A) (l1 l2 : list A) :
  l1 `sublist_of` l2 -> StronglySorted R l2 -> StronglySorted R l1.
Proof.
  induction 1 as [|x l1 l2 Hsub IH|x l1 l2 Hsub IH]; intros Hs.
  - constructor.
  - apply StronglySorted_inv in Hs as [Hs Hall]. constructor; [by apply IH|].
    rewrite Forall_forall in *. intros y Hy. apply Hall.
    by apply (elem_of_sublist _ _ _ Hy).
  - apply StronglySorted_inv in Hs as [Hs _]. by apply IH.
Qed.

Lemma walk_edges_edges qm (n : Z) (mq : Q) (edges : list edge) (acc : list Z) :
  exists es,
    walk_edges qm n mq edges acc = acc ++ es.*1 /\ es `sublist_of` edges.
Proof.
  revert acc. induction edges as [|[cand w] rest IH]; intros acc.
  - exists []. by rewrite app_nil_r.
  - cbn [walk_edges].
    destruct (Qle_bool mq (_get_course_score qm cand * 100)).
    + case_bool_decide as Hn.
      * exists [(cand, w)]. split; [done|]. apply sublist_skip, sublist_nil_l.
      * destruct (IH (acc ++ [cand])) as (es & -> & Hsub).
        exists ((cand, w) :: es). split; [by rewrite <- app_assoc|].
        by apply sublist_skip.
    + case_bool_decide as Hn.
      * exists []. rewrite app_nil_r. split; [done|apply sublist_nil_l].
      * destruct (IH acc) as (es & -> & Hsub).
        exists es. split; [done|by apply sublist_cons].
Qed.

(** The answer of [get_recommendations] on a built index is ranked: its
    entries are the candidates of edges of the course, in the order of the
    course's edge list, and so by non-increasing weight. *)
Theorem get_recommendations_ranked (pcs : list pair_item) (qm : quality_table)
    (ac : list Z) (t c n : Z) (mq : Q) :
  exists es,
    get_recommendations (init pcs qm ac t) c n mq = es.*1 /\
    es `sublist_of` edges_at (recommendation_index (init pcs qm ac t)) c /\
    StronglySorted heavier es.
Proof.
  unfold get_recommendations, edges_at.
  destruct (recommendation_index (init pcs qm ac t) !! c) as [edges|] eqn:Hl;
    cbn [default].
  - destruct (walk_edges_edges (quality_metrics (init pcs qm ac t)) n mq edges [])
      as (es & Hes & Hsub).
    exists es. split_and!; [done|done|].
    apply (StronglySorted_sublist heavier es edges Hsub).
    unfold init in Hl. cbn [recommendation_index] in Hl.
    rewrite build_index_lookup in Hl.
    apply fmap_Some in Hl as (raw & _ & ->). apply sort_edges_sorted.
  - exists []. split_and!; [done|done|constructor].
Qed.

(** ** Small backfill pools *)

(** When the backfill pool has no more courses than there are open slots,
    the backfill takes the whole pool: the courses returned are the
    accepted candidates followed by the pool in some order, whatever the
    random source. *)
Theorem backfill_takes_small_pool (self : CourseRecommender) (rng : nat -> nat)
    (draws : nat) (c n : Z) (mq : Q) :
  Z.of_nat (length (get_recommendations self c n mq)) +
  Z.of_nat (length (backfill_pool self c mq (get_recommendations self c n mq))) <= n ->
  exists drawn,
    (resolve self rng draws c n mq).1 =
      pad_none n (get_recommendations self c n mq ++ drawn) /\
    drawn ≡ₚ backfill_pool self c mq (get_recommendations self c n mq).
Proof.
  intros Hsmall.
  destruct (decide (Z.of_nat (length (get_recommendations self c n mq)) < n))
    as [Hlt|Hge].
  - destruct (backfill_spec self rng draws c n mq _ Hlt)
      as (drawn & Hrecs & Hav & _ & Hlen & Hexit).
    exists drawn. split; [unfold resolve; cbn [fst]; by rewrite Hrecs|].
    assert (bf_available
              (backfill self rng draws c n mq (get_recommendations self c n mq)) = [])
      as Hempty.
    { destruct Hexit as [Hfull|?]; [|done].
      apply Permutation_length in Hav. rewrite !length_app in *.
      destruct (bf_available _); [done|simpl in Hav; lia]. }
    by rewrite Hempty, app_nil_r in Hav.
  - exists []. split.
    + unfold resolve, backfill. rewrite bool_decide_eq_false_2 by done.
      cbn [fst bf_recs]. by rewrite app_nil_r.
    + destruct (backfill_pool self c mq (get_recommendations self c n mq));
        [done|simpl in Hsmall; lia].
Qed.

Lemma backfill_takes_small_pool_witness :
  exists drawn,
    (resolve Scenario.unconnected (fun _ => 0%nat) 0 101 3 (50 # 1)).1 =
      pad_none 3 (get_recommendations Scenario.unconnected 101 3 (50 # 1) ++ drawn) /\
    drawn ≡ₚ backfill_pool Scenario.unconnected 101 (50 # 1)
               (get_recommendations Scenario.unconnected 101 3 (50 # 1)).
Proof.
  apply (backfill_takes_small_pool Scenario.unconnected (fun _ => 0%nat) 0 101 3 (50 # 1)).
  vm_compute. discriminate.
Defined.

(** ** From the purchase log to the recommendations *)

(** End to end: for a purchase log without a repeated row and a quality
    table with one row per course, the recommender built from the
    aggregate of the log, with any threshold, returns for every course
    pairwise distinct course ids, none of them the course itself. *)
Theorem recommendations_from_log (purchase_data : list purchase_row)
    (qm : quality_table) (ac : list Z) (t : Z) (rng : nat -> nat) (draws : nat)
    (c n : Z) (mq : Q) :
  NoDup purchase_data ->
  NoDup qm.*1 ->
  exists l k,
    (resolve (init (analyze_joint_purchases purchase_data) qm ac t) rng draws c n mq).1
      = (Some <$> l) ++ replicate k None /\
    NoDup l /\ c ∉ l.
Proof.
  intros Hlog Hqm.
  assert (forall a b k, ((a, b), k) ∈ analyze_joint_purchases purchase_data -> a < b)
    as Hlt.
  { intros a b k Hin.
    by destruct (analyze_joint_purchases_distinct_rows purchase_data a b k Hlog Hin). }
  pose proof (primary_NoDup (analyze_joint_purchases purchase_data) qm ac t c n mq
                (Counter_NoDup _) Hlt) as Hprimary.
  destruct (resolve_NoDup_of_primary
              (init (analyze_joint_purchases purchase_data) qm ac t)
              rng draws c n mq Hqm Hprimary) as (drawn & Hres & Hnd & Hpool).
  eexists _, _. split_and!; [exact Hres|exact Hnd|].
  rewrite elem_of_app. intros [Hc|Hc].
  - apply (primary_never_self (analyze_joint_purchases purchase_data) qm ac t c n mq);
      [|done].
    intros a b k Hin. apply Hlt in Hin. lia.
  - by apply Hpool, pool_never_self in Hc.
Qed.

Lemma recommendations_from_log_witness :
  exists l k,
    (resolve (init (analyze_joint_purchases Scenario.purchases) Scenario.quality
                Scenario.courses 0) (fun _ => 0%nat) 0 101 2 (50 # 1)).1
      = (Some <$> l) ++ replicate k None /\
    NoDup l /\ 101 ∉ l.
Proof.
  apply (recommendations_from_log Scenario.purchases Scenario.quality Scenario.courses 0
           (fun _ => 0%nat) 0 101 2 (50 # 1)).
  - apply (bool_decide_unpack _). vm_compute. exact I.
  - apply (bool_decide_unpack _). vm_compute. exact I.
Defined.
